(** * MyVault: the authentication and progressive-lockout engine of [main.py]

    A shallow embedding of the passkey vault, the secret-question recovery,
    the lockout policy and the login verification sequencer of [MyVaultApp],
    followed by the properties established about them. *)

From Stdlib Require Import ZArith Lia.
From stdpp Require Import gmap strings list.

Local Open Scope Z_scope.

(** ** Python text

    A Python [str] is a sequence of code points; [ord] of each is kept as a
    [Z].  Literals of the source are ASCII and are written with [txt]. *)

Abbreviation str := (list Z).

Definition txt (s : string) : list Z :=
  (fun c => Z.of_N (Ascii.N_of_ascii c)) <$> String.list_ascii_of_string s.

(** [str.isspace] on one character: the code points CPython lists in
    [_PyUnicode_IsWhitespace]; [str.strip()] without argument removes exactly
    these from both ends. *)
Definition isspace (c : Z) : bool :=
  ((0x09 <=? c) && (c <=? 0x0D)) || ((0x1C <=? c) && (c <=? 0x20))
  || (c =? 0x85) || (c =? 0xA0) || (c =? 0x1680)
  || ((0x2000 <=? c) && (c <=? 0x200A))
  || (c =? 0x2028) || (c =? 0x2029) || (c =? 0x202F) || (c =? 0x205F)
  || (c =? 0x3000).

Fixpoint lstrip (s : list Z) : list Z :=
  match s with
  | c :: s' => if isspace c then lstrip s' else s
  | [] => []
  end.

Definition rstrip (s : list Z) : list Z := rev (lstrip (rev s)).

Definition strip (s : list Z) : list Z := rstrip (lstrip s).

(** [str.lower] on ASCII text (CPython's [ascii_upper_or_lower]): only
    [A]..[Z] move.  Outside ASCII the mapping is the Unicode database's and is
    a parameter of the development (see [Section Vault]). *)
Definition isascii (s : list Z) : bool := forallb (fun c => (0 <=? c) && (c <? 128)) s.

Definition ascii_tolower (c : Z) : Z :=
  if (65 <=? c) && (c <=? 90) then c + 32 else c.

Definition ascii_lower (s : list Z) : list Z := ascii_tolower <$> s.

(** [str.encode()]: UTF-8.  A lone surrogate raises [UnicodeEncodeError],
    rendered as [None]. *)
Definition utf8_char (c : Z) : option (list Z) :=
  if c <? 0 then None
  else if c <? 0x80 then Some [c]
  else if c <? 0x800 then
    Some [Z.lor 0xC0 (Z.shiftr c 6); Z.lor 0x80 (Z.land c 0x3F)]
  else if c <? 0x10000 then
    if (0xD800 <=? c) && (c <=? 0xDFFF) then None
    else Some [Z.lor 0xE0 (Z.shiftr c 12);
               Z.lor 0x80 (Z.land (Z.shiftr c 6) 0x3F);
               Z.lor 0x80 (Z.land c 0x3F)]
  else if c <? 0x110000 then
    Some [Z.lor 0xF0 (Z.shiftr c 18);
          Z.lor 0x80 (Z.land (Z.shiftr c 12) 0x3F);
          Z.lor 0x80 (Z.land (Z.shiftr c 6) 0x3F);
          Z.lor 0x80 (Z.land c 0x3F)]
  else None.

Definition encode (s : list Z) : option (list Z) := mjoin <$> mapM utf8_char s.

(** ** [hashlib.sha256] and [hmac]

    The two library functions [_hash_passkey] calls, after FIPS 180-4 and
    RFC 2104, on bytes kept as [Z] in [0, 256) and 32-bit words as [Z] with the
    wrap-around written out. *)
Module Sha256.

Definition two32 : Z := Eval vm_compute in 2 ^ 32.

Definition add32 (x y : Z) : Z := (x + y) mod two32.

Definition rotr (n x : Z) : Z :=
  Z.lor (Z.shiftr x n) (Z.shiftl x (32 - n) mod two32).

Definition Ch (x y z : Z) : Z :=
  Z.lxor (Z.land x y) (Z.land (Z.lxor x (two32 - 1)) z).

Definition Maj (x y z : Z) : Z :=
  Z.lxor (Z.lxor (Z.land x y) (Z.land x z)) (Z.land y z).

Definition bsig0 (x : Z) : Z := Z.lxor (Z.lxor (rotr 2 x) (rotr 13 x)) (rotr 22 x).
Definition bsig1 (x : Z) : Z := Z.lxor (Z.lxor (rotr 6 x) (rotr 11 x)) (rotr 25 x).
Definition ssig0 (x : Z) : Z := Z.lxor (Z.lxor (rotr 7 x) (rotr 18 x)) (Z.shiftr x 3).
Definition ssig1 (x : Z) : Z := Z.lxor (Z.lxor (rotr 17 x) (rotr 19 x)) (Z.shiftr x 10).

(** The constants are the leading 32 fractional bits of the square roots
    (initial hash value) and cube roots (round constants) of the first
    primes. *)
Fixpoint cbrt_bits (fuel : nat) (n r : Z) : Z :=
  match fuel with
  | O => r
  | S k =>
      let r' := r + 2 ^ Z.of_nat k in
      cbrt_bits k n (if r' * r' * r' <=? n then r' else r)
  end.

Definition primes64 : list Z :=
  [2; 3; 5; 7; 11; 13; 17; 19; 23; 29; 31; 37; 41; 43; 47; 53;
   59; 61; 67; 71; 73; 79; 83; 89; 97; 101; 103; 107; 109; 113; 127; 131;
   137; 139; 149; 151; 157; 163; 167; 173; 179; 181; 191; 193; 197; 199; 211; 223;
   227; 229; 233; 239; 241; 251; 257; 263; 269; 271; 277; 281; 283; 293; 307; 311].

Definition K : list Z :=
  Eval vm_compute in
    (fun p => cbrt_bits 40 (p * 2 ^ 96) 0 mod 2 ^ 32) <$> primes64.

Definition H0 : list Z :=
  Eval vm_compute in
    (fun p => Z.sqrt (p * 2 ^ 64) mod 2 ^ 32) <$> take 8 primes64.

(** Big-endian packing. *)
Definition be32 (b : list Z) : Z :=
  foldl (fun acc x => acc * 256 + x) 0 b.

Definition bytes_of_word (w : Z) : list Z :=
  [Z.shiftr w 24 mod 256; Z.shiftr w 16 mod 256; Z.shiftr w 8 mod 256; w mod 256].

Fixpoint chunks {A} (fuel : nat) (n : nat) (l : list A) : list (list A) :=
  match fuel with
  | O => []
  | S k => match l with
           | [] => []
           | _ => take n l :: chunks k n (drop n l)
           end
  end.

Definition pad (m : list Z) : list Z :=
  let len := Z.of_nat (length m) in
  m ++ [0x80] ++ replicate (Z.to_nat ((55 - len) mod 64)) 0
    ++ bytes_of_word (Z.shiftr (8 * len) 32 mod two32)
    ++ bytes_of_word ((8 * len) mod two32).

(** The message schedule, most recent word first while it is extended. *)
Fixpoint extend (n : nat) (r : list Z) : list Z :=
  match n with
  | O => r
  | S k =>
      let w := add32 (add32 (ssig1 (r !!! 1%nat)) (r !!! 6%nat))
                     (add32 (ssig0 (r !!! 14%nat)) (r !!! 15%nat)) in
      extend k (w :: r)
  end.

Definition schedule (block : list Z) : list Z :=
  rev (extend 48 (rev (be32 <$> chunks 16 4 block))).

Record regs := Regs { ra : Z; rb : Z; rc : Z; rd : Z; re : Z; rf : Z; rg : Z; rh : Z }.

Definition round (s : regs) (kw : Z * Z) : regs :=
  let t1 := add32 (add32 (add32 (rh s) (bsig1 (re s)))
                         (add32 (Ch (re s) (rf s) (rg s)) kw.1)) kw.2 in
  let t2 := add32 (bsig0 (ra s)) (Maj (ra s) (rb s) (rc s)) in
  Regs (add32 t1 t2) (ra s) (rb s) (rc s) (add32 (rd s) t1) (re s) (rf s) (rg s).

Definition compress (h : regs) (block : list Z) : regs :=
  let s := foldl round h (zip K (schedule block)) in
  Regs (add32 (ra h) (ra s)) (add32 (rb h) (rb s)) (add32 (rc h) (rc s))
       (add32 (rd h) (rd s)) (add32 (re h) (re s)) (add32 (rf h) (rf s))
       (add32 (rg h) (rg s)) (add32 (rh h) (rh s)).

Definition init : regs :=
  Regs (H0 !!! 0%nat) (H0 !!! 1%nat) (H0 !!! 2%nat) (H0 !!! 3%nat)
       (H0 !!! 4%nat) (H0 !!! 5%nat) (H0 !!! 6%nat) (H0 !!! 7%nat).

Definition words_of (s : regs) : list Z :=
  [ra s; rb s; rc s; rd s; re s; rf s; rg s; rh s].

(** [hashlib.sha256(m).digest()] *)
Definition digest (m : list Z) : list Z :=
  let p := pad m in
  words_of (foldl compress init (chunks (length p) 64 p)) ≫= bytes_of_word.

(** [hmac.new(key, msg, hashlib.sha256).digest()] *)
Definition hmac (key msg : list Z) : list Z :=
  let k0 := if 64 <? Z.of_nat (length key) then digest key else key in
  let k := k0 ++ replicate (64 - length k0)%nat 0 in
  digest ((Z.lxor 0x5C <$> k) ++ digest ((Z.lxor 0x36 <$> k) ++ msg)).

(** [.hexdigest()]: two lower-case hexadecimal digits per byte. *)
Definition hexchar (d : Z) : Z := if d <? 10 then 48 + d else 87 + d.

Definition hex (bytes : list Z) : list Z :=
  bytes ≫= (fun b => [hexchar (b / 16); hexchar (b mod 16)]).

End Sha256.

(** ** The shelf behind [StorageBox]

    [StorageBox('auth')] is a [shelve] file: a persistent dictionary from
    key to pickled Python value.  The values the application writes there
    are [None], integers and text.  The text under ['lockout_until'] is
    [datetime.isoformat()] of a timestamp and is read back with
    [datetime.fromisoformat]; it is kept as the timestamp it denotes
    ([VIso]), the round trip being the identity on naive datetimes.

    [get] and [put] swallow I/O errors of the shelf; the shelf is taken to
    work, so that [put] stores and [get] finds what was stored. *)
Inductive value :=
| VNone
| VInt (n : Z)
| VStr (s : list Z)
| VIso (t : Z).

#[global] Instance value_eq_dec : EqDecision value.
Proof. solve_decision. Defined.

(** [StorageBox.get(key, defaultValue)] *)
Definition get (key : string) (defaultValue : value) (box : gmap string value) : value :=
  default defaultValue (box !! key).

(** [StorageBox.put(key, value)] *)
Definition put (key : string) (v : value) (box : gmap string value) : gmap string value :=
  <[key := v]> box.

(** [StorageBox.clear_all()] *)
Definition clear_all (box : gmap string value) : gmap string value := ∅.

(** Python truth value, as [bool(v)] and [if v:] take it. *)
Definition truthy (v : value) : bool :=
  match v with
  | VNone => false
  | VInt n => negb (n =? 0)
  | VStr s => negb (bool_decide (s = []))
  | VIso _ => true
  end.

(** Dynamic type tests: [None] stands for the [TypeError] or
    [AttributeError] Python raises on a value of another type. *)
Definition as_int (v : value) : option Z :=
  match v with VInt n => Some n | _ => None end.

Definition as_str (v : value) : option (list Z) :=
  match v with VStr s => Some s | _ => None end.

(** [datetime] values are naive timestamps with microsecond resolution,
    kept as a count of microseconds; [timedelta(seconds=n)] is [n] million
    of them. *)
Definition timedelta_seconds (n : Z) : Z := n * 1000000.

(** ** Security constants *)
Definition MAX_ATTEMPTS : Z := 3.
Definition LOCKOUT_BASE_TIME : Z := 60.
Definition LOCKOUT_MULTIPLIER : Z := 2.
Definition MAX_LOCKOUT_TIME : Z := 3600.

(** ** Passkey hashing

    [hmac.new(salt.encode(), passkey.encode(), hashlib.sha256).hexdigest()];
    [None] when one of the two texts cannot be encoded. *)
Definition _hash_passkey (passkey salt : list Z) : option (list Z) :=
  key ← encode salt;
  msg ← encode passkey;
  Some (Sha256.hex (Sha256.hmac key msg)).

(** [hmac.compare_digest] on two [str]: both must be ASCII, else
    [TypeError]. *)
Definition compare_digest (a b : list Z) : option bool :=
  if isascii a && isascii b then Some (bool_decide (a = b)) else None.

(** ** The application object

    The attributes of [MyVaultApp] the authentication engine uses.  A method
    that only reads returns its result; a method that assigns returns the
    updated object; [option] is used where an exception can escape ([None]),
    in which case the model does not follow the run further. *)
Record App := mkApp {
  auth : gmap string value;
  _failed_attempts : Z;
  _lockout_until : option Z;
  _lockout_count : Z;
  _setup_data : gmap string value;
}.

Definition with_auth (f : gmap string value -> gmap string value) (self : App) : App :=
  mkApp (f (auth self)) (_failed_attempts self) (_lockout_until self)
        (_lockout_count self) (_setup_data self).

Definition set_failed_attempts (n : Z) (self : App) : App :=
  mkApp (auth self) n (_lockout_until self) (_lockout_count self) (_setup_data self).

Definition set_lockout_until (u : option Z) (self : App) : App :=
  mkApp (auth self) (_failed_attempts self) u (_lockout_count self) (_setup_data self).

Definition set_lockout_count (n : Z) (self : App) : App :=
  mkApp (auth self) (_failed_attempts self) (_lockout_until self) n (_setup_data self).

Definition set_setup_data (d : gmap string value) (self : App) : App :=
  mkApp (auth self) (_failed_attempts self) (_lockout_until self) (_lockout_count self) d.

(** [MyVaultApp.__init__]: the shelf is what the previous run left on disk. *)
Definition __init__ (disk : gmap string value) : App :=
  mkApp disk 0 None 0 ∅.

(** *** Passkey helpers *)
Definition _has_passkey (self : App) : bool :=
  truthy (get "pass_hash" VNone (auth self)).

Definition _verify_passkey (self : App) (passkey : list Z) : option bool :=
  salt ← as_str (get "salt" (VStr []) (auth self));
  pass_hash ← as_str (get "pass_hash" (VStr []) (auth self));
  h ← _hash_passkey passkey salt;
  compare_digest h pass_hash.

(** [salt] is the value [secrets.token_hex(16)] returns in this call. *)
Definition _save_passkey (salt : list Z) (passkey : list Z) (self : App) : option App :=
  let self := with_auth (put "salt" (VStr salt)) self in
  h ← _hash_passkey passkey salt;
  Some (with_auth (put "pass_hash" (VStr h)) self).

(** *** Lockout helpers *)
Definition _is_locked_out (now : Z) (self : App) : bool * App :=
  let self :=
    match _lockout_until self with
    | None =>
        match get "lockout_until" VNone (auth self) with
        | VIso t => set_lockout_until (Some t) self
        | _ => self
        end
    | Some _ => self
    end in
  match _lockout_until self with
  | Some u => (now <? u, self)
  | None => (false, self)
  end.

(** [int()] truncates towards zero, as [Z.quot] does. *)
Definition _get_lockout_remaining (now : Z) (self : App) : Z :=
  match _lockout_until self with
  | Some u => Z.max 0 ((u - now) ÷ 1000000)
  | None => 0
  end.

(** The window [_apply_lockout] computes for the [n]-th lockout. *)
Definition lockout_time (n : Z) : Z :=
  Z.min (LOCKOUT_BASE_TIME * LOCKOUT_MULTIPLIER ^ (n - 1)) MAX_LOCKOUT_TIME.

(** With a stored count below zero the power is a Python float; that case
    is outside the integer model ([None]). *)
Definition _apply_lockout (now : Z) (self : App) : option App :=
  stored ← as_int (get "lockout_count" (VInt 0) (auth self));
  let count := stored + 1 in
  if count - 1 <? 0 then None else
  let self := set_lockout_count count self in
  let self := with_auth (put "lockout_count" (VInt count)) self in
  let until := now + timedelta_seconds (lockout_time count) in
  let self := set_lockout_until (Some until) self in
  let self := with_auth (put "lockout_until" (VIso until)) self in
  let self := set_failed_attempts 0 self in
  Some (with_auth (put "failed_attempts" (VInt 0)) self).

Definition _clear_lockout (self : App) : App :=
  let self := set_lockout_until None self in
  let self := set_lockout_count 0 self in
  let self := with_auth (put "lockout_until" VNone) self in
  let self := with_auth (put "lockout_count" (VInt 0)) self in
  with_auth (put "failed_attempts" (VInt 0)) self.

(** ** The pages and the login session

    What is on screen, as far as authentication is concerned.  The login
    session is the state [_build_verification_page] closes its handlers over:
    the [verified] dictionary, the [current_step] cell and the two text
    controls the handlers report through. *)
Inductive text :=
| Blank
| T (key : string)
| WrongPass (left : Z).

#[global] Instance text_eq_dec : EqDecision text.
Proof. solve_decision. Defined.

Record Session := mkSession {
  verified : gmap string bool;
  current_step : Z;
  status_text : text;
  err_text : text;
}.

Definition set_verified (k : string) (s : Session) : Session :=
  mkSession (<[k := true]> (verified s)) (current_step s) (status_text s) (err_text s).

Definition set_status (t : text) (s : Session) : Session :=
  mkSession (verified s) (current_step s) t (err_text s).

Definition set_err (t : text) (s : Session) : Session :=
  mkSession (verified s) (current_step s) (status_text s) t.

Definition set_step (n : Z) (s : Session) : Session :=
  mkSession (verified s) n (status_text s) (err_text s).

Definition fresh_session : Session :=
  mkSession (<["passkey" := false]> (<["voice" := false]> (<["face" := false]>
               (<["fingerprint" := false]> ∅))))
            0 Blank Blank.

Inductive Page :=
| SetupStep (n : Z)
| VerificationPage (s : Session)
| LockoutPage
| VaultPage.

(** What a handler of the voice or face step puts on screen, in order. *)
Inductive UiAct :=
| Direction (key : string)
| Remaining (seconds : Z)
| StepOf (i total : Z)
| StepIndicators (current total : Z)
| Sleep (milliseconds : Z).

(** The machine the application runs on, as the login handlers could probe
    it: [check_microphone_available()], [check_webcam_available()], and what
    the platform's biometric dialog answers to [page.login] (it raises, or
    delivers a [LoginEvent] with or without [error]). *)
Inductive LoginResult :=
| LoginRaises
| LoginEvent (error : bool).

Record Devices := mkDevices {
  microphone_available : bool;
  webcam_available : bool;
  local_authentication : LoginResult;
}.

(** [simulate_voice_verification()] and [simulate_face_verification()]
    sleep two seconds and return [True]. *)
Definition simulate_voice_verification : bool := true.
Definition simulate_face_verification : bool := true.

(** Python's short-circuit [and] over lookups that may raise [KeyError]. *)
Definition py_and (a b : option bool) : option bool :=
  x ← a; if x : bool then b else Some false.

Section Vault.

(** [str.lower], and [is_mobile()] of the platform. *)
Variable str_lower : list Z -> list Z.
Variable is_mobile : bool.

(** *** Secret question helpers; [answer_salt] is the hex token drawn. *)
Definition _has_secret_question (self : App) : bool :=
  truthy (get "secret_question" VNone (auth self)).

Definition _save_secret_question (answer_salt question_key answer : list Z)
    (self : App) : option App :=
  answer_hash ← _hash_passkey (str_lower (strip answer)) answer_salt;
  let self := with_auth (put "secret_question" (VStr question_key)) self in
  let self := with_auth (put "secret_answer_hash" (VStr answer_hash)) self in
  Some (with_auth (put "secret_answer_salt" (VStr answer_salt)) self).

Definition _verify_secret_answer (self : App) (answer : list Z) : option bool :=
  stored_hash ← as_str (get "secret_answer_hash" (VStr []) (auth self));
  salt ← as_str (get "secret_answer_salt" (VStr []) (auth self));
  h ← _hash_passkey (str_lower (strip answer)) salt;
  compare_digest h stored_hash.

(** *** Verification and lockout pages

    [_build_verification_page] shows the lockout page when locked;
    [_build_lockout_page] ends by calling [update_countdown], which either
    re-arms its one-second timer or clears the lockout and builds the
    verification page again.  The mutual recursion runs on [fuel]
    ([pages_total] shows three units always suffice).  One handler run
    takes one clock reading [now]. *)
Fixpoint _build_verification_page (fuel : nat) (now : Z) (self : App)
    : option (App * Page) :=
  match fuel with
  | O => None
  | S k =>
      let '(locked, self) := _is_locked_out now self in
      if locked then update_countdown k now self
      else Some (self, VerificationPage fresh_session)
  end
with update_countdown (fuel : nat) (now : Z) (self : App) : option (App * Page) :=
  match fuel with
  | O => None
  | S k =>
      let remaining := _get_lockout_remaining now self in
      if 0 <? remaining then Some (self, LockoutPage)
      else _build_verification_page k now (_clear_lockout self)
  end.

Definition _build_lockout_page (fuel : nat) (now : Z) (self : App)
    : option (App * Page) :=
  update_countdown fuel now self.

Definition page_fuel : nat := 4.

(** [_build_setup_step1] *)
Definition _build_setup_step1 (self : App) : App * Page :=
  (set_setup_data ∅ self, SetupStep 1).

(** [main], after the window is configured. *)
Definition main (now : Z) (self : App) : option (App * Page) :=
  n ← as_int (get "failed_attempts" (VInt 0) (auth self));
  let self := set_failed_attempts n self in
  if negb (_has_passkey self) then Some (_build_setup_step1 self)
  else _build_verification_page page_fuel now self.

(** Closing the application and starting it again: a new [MyVaultApp]
    over the same shelf. *)
Definition restart (now : Z) (self : App) : option (App * Page) :=
  main now (__init__ (auth self)).

(** *** The handlers of the verification page *)
Definition _check_complete (s : Session) : option Page :=
  all_ok ← py_and (py_and (verified s !! "passkey") (verified s !! "voice"))
                  (verified s !! "face");
  all_ok ← (if is_mobile then py_and (Some all_ok) (verified s !! "fingerprint")
            else Some all_ok);
  Some (if all_ok : bool then VaultPage else VerificationPage s).

Definition _next_step (s : Session) : option Page :=
  _check_complete (set_step (current_step s + 1) s).

(** The passkey step's [_verify_passkey(_)]; [entered] is [pass_f.value]. *)
Definition login_verify_passkey (now : Z) (entered : list Z) (self : App)
    (s : Session) : option (App * Page) :=
  if MAX_ATTEMPTS <=? _failed_attempts self then
    self ← _apply_lockout now self;
    _build_lockout_page page_fuel now self
  else
    ok ← _verify_passkey self (strip entered);
    if ok : bool then
      let s := set_verified "passkey" s in
      let self := set_failed_attempts 0 self in
      let self := with_auth (put "failed_attempts" (VInt 0)) self in
      let s := set_err Blank s in
      p ← _next_step s;
      Some (self, p)
    else
      let self := set_failed_attempts (_failed_attempts self + 1) self in
      let self := with_auth (put "failed_attempts" (VInt (_failed_attempts self))) self in
      let left := MAX_ATTEMPTS - _failed_attempts self in
      if left <=? 0 then
        self ← _apply_lockout now self;
        _build_lockout_page page_fuel now self
      else
        Some (self, VerificationPage (set_err (WrongPass left) s)).

(** The voice step's script: the three steps of [do_verify], the
    listening one counting its ten seconds down. *)
Definition voice_steps : list (string * Z) :=
  [("voice_speak_now", 3000); ("voice_listening", 10000); ("voice_processing", 2000)].

Fixpoint listen_countdown (remaining : nat) (i : Z) : list UiAct :=
  match remaining with
  | O => []
  | S r => Remaining (Z.of_nat remaining) :: StepIndicators i 3 :: Sleep 1000
           :: listen_countdown r i
  end.

Definition voice_step (i : nat) (st : string * Z) : list UiAct :=
  Direction st.1 ::
  (if String.eqb st.1 "voice_listening" then
     listen_countdown (Z.to_nat (st.2 ÷ 1000)) (Z.of_nat i) ++ [StepOf (Z.of_nat i + 1) 3]
   else [StepOf (Z.of_nat i + 1) 3; StepIndicators (Z.of_nat i) 3; Sleep st.2]).

Definition login_verify_voice (env : Devices) (s : Session)
    : option (list UiAct * Page) :=
  let s := set_status (T "verifying") s in
  let acts := mjoin (imap voice_step voice_steps) in
  let s := set_verified "voice" s in
  let s := set_status Blank s in
  p ← _next_step s;
  Some (acts ++ [Direction "voice_success"; Sleep 800], p).

(** The face step's script: six head directions, a second each. *)
Definition face_directions : list string :=
  ["face_look_center"; "face_look_up"; "face_look_down"; "face_look_left";
   "face_look_right"; "face_capture_complete"].

Definition face_step (i : nat) (key : string) : list UiAct :=
  [Direction key; StepOf (Z.of_nat i + 1) 6; StepIndicators (Z.of_nat i) 6; Sleep 1000].

Definition login_verify_face (env : Devices) (s : Session)
    : option (list UiAct * Page) :=
  let s := set_status (T "verifying") s in
  let acts := mjoin (imap face_step face_directions) in
  let s := set_verified "face" s in
  let s := set_status Blank s in
  p ← _next_step s;
  Some (acts ++ [Direction "face_success"; Sleep 800], p).

(** The fingerprint step: only on mobile, through the platform dialog. *)
Definition login_verify_fingerprint (env : Devices) (s : Session) : option Page :=
  if is_mobile then
    match local_authentication env with
    | LoginRaises => Some (VerificationPage (set_err (T "biometric_unavailable") s))
    | LoginEvent true => Some (VerificationPage (set_err (T "biometric_fail") s))
    | LoginEvent false =>
        let s := set_verified "fingerprint" s in
        let s := set_status (T "fingerprint_success") s in
        _check_complete s
    end
  else Some (VerificationPage s).

(** *** Setup

    Step 1's [_next] keeps the new passkey in [_setup_data]; step 2's
    [_next] the question and the answer; [_complete_setup] writes both to
    the shelf.  The registration steps in between only set flags in
    [_setup_data] and are not followed here. *)
Definition setup_step1_next (new confirm : list Z) (self : App) : App * Page * text :=
  let p1 := strip new in
  let p2 := strip confirm in
  if Z.of_nat (length p1) <? 4 then (self, SetupStep 1, T "pass_too_short")
  else if negb (bool_decide (p1 = p2)) then (self, SetupStep 1, T "pass_mismatch")
  else (set_setup_data (<["passkey" := VStr p1]> (_setup_data self)) self,
        SetupStep 2, Blank).

Definition setup_step2_next (question : option (list Z)) (answer : list Z) (self : App)
    : App * Page * text :=
  let a := strip answer in
  match question with
  | None | Some [] => (self, SetupStep 2, T "select_question")
  | Some q =>
      if Z.of_nat (length a) <? 2 then (self, SetupStep 2, T "answer_hint")
      else (set_setup_data (<["answer" := VStr a]> (<["question" := VStr q]>
                              (_setup_data self))) self,
            SetupStep 3, Blank)
  end.

Definition _complete_setup (salt answer_salt : list Z) (self : App) : option (App * Page) :=
  passkey ← _setup_data self !! "passkey" ≫= as_str;
  self ← _save_passkey salt passkey self;
  question ← _setup_data self !! "question" ≫= as_str;
  answer ← _setup_data self !! "answer" ≫= as_str;
  self ← _save_secret_question answer_salt question answer self;
  Some (set_setup_data ∅ self, VaultPage).

(** *** Forgot passkey

    [_verify] of the secret-question dialog opens the reset dialog when
    the answer verifies; [_save] of the reset dialog stores the new passkey,
    clears the lockout and builds the verification page.  The result of
    [_save] is the object, what its [err_text] or snack bar shows, and the
    page when it changes. *)
Definition forgot_passkey_verify (self : App) (answer : list Z) : option bool :=
  _verify_secret_answer self answer.

Definition reset_passkey_save (now : Z) (salt new confirm : list Z) (self : App)
    : option (App * text * option Page) :=
  let p1 := strip new in
  let p2 := strip confirm in
  if Z.of_nat (length p1) <? 4 then Some (self, T "pass_too_short", None)
  else if negb (bool_decide (p1 = p2)) then Some (self, T "pass_mismatch", None)
  else
    self ← _save_passkey salt p1 self;
    let self := _clear_lockout self in
    '(self, page) ← _build_verification_page page_fuel now self;
    Some (self, T "passkey_changed", Some page).

(** *** Change passkey: [_save] of the settings dialog. *)
Definition change_passkey_save (salt current new confirm : list Z) (self : App)
    : option (App * text) :=
  let c := strip current in
  let p1 := strip new in
  let p2 := strip confirm in
  ok ← _verify_passkey self c;
  if negb ok then Some (self, T "wrong_current")
  else if Z.of_nat (length p1) <? 4 then Some (self, T "pass_too_short")
  else if negb (bool_decide (p1 = p2)) then Some (self, T "pass_mismatch")
  else
    self ← _save_passkey salt p1 self;
    Some (self, T "passkey_changed").

(** *** Runs

    What the user and the timer do, one event at a time.  A step of the
    sequencer is enabled when its button is on screen ([_update_content]
    shows the passkey form at step 0, voice at 1, face at 2, fingerprint at
    3 on mobile); the countdown timer runs while the lockout page is shown;
    the forgot-passkey link is on the verification and lockout pages.
    [None]: the event cannot happen on this page, or its handler raises. *)
Inductive Factor :=
| EnterPasskey (now : Z) (entered : list Z)
| VerifyVoice (env : Devices)
| VerifyFace (env : Devices)
| VerifyFingerprint (env : Devices).

Definition sequencer_step (f : Factor) (self : App) (s : Session) : option (App * Page) :=
  match f with
  | EnterPasskey now entered =>
      if current_step s =? 0 then login_verify_passkey now entered self s else None
  | VerifyVoice env =>
      if current_step s =? 1 then r ← login_verify_voice env s; Some (self, r.2) else None
  | VerifyFace env =>
      if current_step s =? 2 then r ← login_verify_face env s; Some (self, r.2) else None
  | VerifyFingerprint env =>
      if (current_step s =? 3) && is_mobile
      then p ← login_verify_fingerprint env s; Some (self, p) else None
  end.

Inductive Event :=
| Verify (f : Factor)
| TimerTick (now : Z)
| Relaunch (now : Z)
| Recover (now : Z) (answer salt new confirm : list Z).

Definition step (st : App * Page) (ev : Event) : option (App * Page) :=
  match ev, st.2 with
  | Verify f, VerificationPage s => sequencer_step f st.1 s
  | TimerTick now, LockoutPage => update_countdown page_fuel now st.1
  | Relaunch now, _ => restart now st.1
  | Recover now answer salt new confirm, (VerificationPage _ | LockoutPage) =>
      ok ← forgot_passkey_verify st.1 answer;
      if ok : bool then
        r ← reset_passkey_save now salt new confirm st.1;
        Some (r.1.1, default st.2 r.2)
      else Some st
  | _, _ => None
  end.

Fixpoint run (st : App * Page) (evs : list Event) : option (App * Page) :=
  match evs with
  | [] => Some st
  | ev :: evs => st ← step st ev; run st evs
  end.

(** The dictionary of a session holds the four factor keys. *)
Definition session_ok (s : Session) : Prop :=
  is_Some (verified s !! "passkey") /\ is_Some (verified s !! "voice")
  /\ is_Some (verified s !! "face") /\ is_Some (verified s !! "fingerprint").

(** Whether a factor is marked in the dictionary of a session. *)
Definition is_verified (k : string) (s : Session) : bool :=
  bool_decide (verified s !! k = Some true).

(** *** Factor outcomes

    The login handlers report through the session: a factor is marked in
    [verified], or an error text is shown.  Read in the vocabulary of the
    design ([Success], [Failure], [DeviceUnavailable]): *)
Inductive FactorOutcome := Success | Failure | DeviceUnavailable.

Definition outcome_of (factor : string) (after : Page) : FactorOutcome :=
  match after with
  | VaultPage => Success
  | VerificationPage s =>
      if bool_decide (verified s !! factor = Some true) then Success
      else if bool_decide (err_text s = T "biometric_unavailable") then DeviceUnavailable
      else Failure
  | _ => Failure
  end.

(** Everything the voice and face handlers put on screen. *)
Definition voice_script : list UiAct :=
  mjoin (imap voice_step voice_steps) ++ [Direction "voice_success"; Sleep 800].

Definition face_script : list UiAct :=
  mjoin (imap face_step face_directions) ++ [Direction "face_success"; Sleep 800].

(** *** A sample installation

    The vault the worked runs below start from: passkey and recovery answer
    entered through the two setup forms and written by [_complete_setup] with
    two drawn salts. *)
Definition sample_salt : list Z := txt "3f9a1c0e5b7d2468ace013579bdf0246".
Definition sample_answer_salt : list Z := txt "0a1b2c3d4e5f60718293a4b5c6d7e8f9".
Definition second_salt : list Z := txt "77e1d0c9b8a7f6e5d4c3b2a190807060".

Definition sample_setup : App :=
  let self := (setup_step1_next (txt "correct horse") (txt "correct horse ") (__init__ ∅)).1.1 in
  (setup_step2_next (Some (txt "q_birth_city")) (txt "Paris") self).1.1.

Definition sample_vault : App :=
  default (__init__ ∅) (fst <$> _complete_setup sample_salt sample_answer_salt sample_setup).

(** The user closes the application after setup and opens it later. *)
Definition seconds (n : Z) : Z := timedelta_seconds n.

Definition wrong (now : Z) : Event := Verify (EnterPasskey now (txt "guess")).

(** The sample vault on first launch, and the object after a run of events
    from there. *)
Definition sample_after (evs : list Event) : App :=
  (default (sample_vault, VaultPage) (run (sample_vault, VaultPage) evs)).1.

(** What a run ended in, as far as the lockout goes: whether the lockout
    page is shown, the remaining seconds at [now], the failures counted in
    memory, and the lockout count on the shelf. *)
Definition lockout_view (now : Z) (r : option (App * Page))
    : option (bool * Z * Z * value) :=
  st ← r;
  Some (match st.2 with LockoutPage => true | _ => false end,
        _get_lockout_remaining now st.1,
        _failed_attempts st.1,
        get "lockout_count" VNone (auth st.1)).

(** The sixteen characters of a hexadecimal digest, and every text of a
    given length over an alphabet (used to count digests and passkeys). *)
Definition hexdigits : list Z := Eval vm_compute in txt "0123456789abcdef".

Fixpoint words (alphabet : list Z) (n : nat) : list (list Z) :=
  match n with
  | O => [[]]
  | S k => c ← alphabet; (cons c <$> words alphabet k)
  end.

(** ** The credential list

    [StorageBox('vault')] keeps the credentials as one list under the key
    ['_items']; a credential is a dictionary with the keys ['app'], ['user']
    and ['pass'].  The four list methods of [StorageBox] read the list with
    [db.get('_items', [])] and write it back whole. *)
Definition add {A} (v : A) (box : gmap string (list A)) : gmap string (list A) :=
  let items := default [] (box !! "_items") in
  <["_items" := items ++ [v]]> box.

Definition update_at {A} (index : Z) (v : A) (box : gmap string (list A))
    : gmap string (list A) :=
  let items := default [] (box !! "_items") in
  if (0 <=? index) && (index <? Z.of_nat (length items))
  then <["_items" := <[Z.to_nat index := v]> items]> box
  else box.

Definition get_all {A} (box : gmap string (list A)) : list A :=
  default [] (box !! "_items").

Definition delete_at {A} (index : Z) (box : gmap string (list A)) : gmap string (list A) :=
  let items := default [] (box !! "_items") in
  if (0 <=? index) && (index <? Z.of_nat (length items))
  then <["_items" := delete (Z.to_nat index) items]> box
  else box.

(** [c.get(key, '')] on a credential. *)
Definition field (key : string) (c : gmap string (list Z)) : list Z :=
  default [] (c !! key).

(** Python's [items[i]]: a negative index counts from the end; [None] is
    [IndexError]. *)
Definition py_index {A} (items : list A) (i : Z) : option A :=
  let n := Z.of_nat (length items) in
  if (0 <=? i) && (i <? n) then items !! Z.to_nat i
  else if (- n <=? i) && (i <? 0) then items !! Z.to_nat (n + i)
  else None.

(** [_open_dialog]: the texts the three fields start with. *)
Definition _open_dialog (edit_index : option Z) (vault : gmap string (list (gmap string (list Z))))
    : option (list Z * list Z * list Z) :=
  match edit_index with
  | Some i =>
      existing ← py_index (get_all vault) i;
      Some (field "app" existing, field "user" existing, field "pass" existing)
  | None => Some ([], [], [])
  end.

(** [_save] of that dialog: the three texts are stripped, none may be
    empty, and the record is added or written over the edited one. *)
Definition credential_save (edit_index : option Z) (app_f usr_f pas_f : list Z)
    (vault : gmap string (list (gmap string (list Z))))
    : gmap string (list (gmap string (list Z))) * text :=
  let a := strip app_f in
  let u := strip usr_f in
  let p := strip pas_f in
  if bool_decide (a = []) || bool_decide (u = []) || bool_decide (p = [])
  then (vault, T "fill_all")
  else
    let rec := <["app" := a]> (<["user" := u]> (<["pass" := p]> ∅)) in
    match edit_index with
    | Some i => (update_at i rec vault, Blank)
    | None => (add rec vault, Blank)
    end.

(** [_yes] of [_confirm_delete]. *)
Definition confirm_delete_yes (index : Z) (vault : gmap string (list (gmap string (list Z))))
    : gmap string (list (gmap string (list Z))) :=
  delete_at index vault.

(** [_copy_user] and [_copy_pass]: what goes to the clipboard, if anything. *)
Definition _copy_user (i : Z) (vault : gmap string (list (gmap string (list Z))))
    : option (list Z) :=
  let items := get_all vault in
  if (0 <=? i) && (i <? Z.of_nat (length items))
  then field "user" <$> items !! Z.to_nat i else None.

Definition _copy_pass (i : Z) (vault : gmap string (list (gmap string (list Z))))
    : option (list Z) :=
  let items := get_all vault in
  if (0 <=? i) && (i <? Z.of_nat (length items))
  then field "pass" <$> items !! Z.to_nat i else None.

(** Python's [q in s] on text. *)
Fixpoint startswith (q s : list Z) : bool :=
  match q, s with
  | [], _ => true
  | _ :: _, [] => false
  | c :: q', d :: s' => (c =? d) && startswith q' s'
  end.

Fixpoint contains (q s : list Z) : bool :=
  startswith q s || match s with [] => false | _ :: s' => contains q s' end.

(** [_on_search] keeps the query, [_refresh_content] lists the credentials
    it matches, each with its position in the stored list (the index its
    card hands to the edit, copy and delete handlers). *)
Definition _on_search (value : list Z) : list Z := strip (str_lower value).

Definition _refresh_content (q : list Z) (vault : gmap string (list (gmap string (list Z))))
    : list (nat * gmap string (list Z)) :=
  let all_items := get_all vault in
  if negb (bool_decide (q = []))
  then filter (fun ic => contains q (str_lower (field "app" ic.2))
                         || contains q (str_lower (field "user" ic.2)) = true)
              (imap pair all_items)
  else imap pair all_items.

(** What the user does on the vault page. *)
Inductive VaultOp :=
| SaveNew (app_f usr_f pas_f : list Z)
| SaveEdit (index : Z) (app_f usr_f pas_f : list Z)
| Delete (index : Z).

Definition vault_step (vault : gmap string (list (gmap string (list Z)))) (op : VaultOp)
    : gmap string (list (gmap string (list Z))) :=
  match op with
  | SaveNew a u p => (credential_save None a u p vault).1
  | SaveEdit i a u p => (credential_save (Some i) a u p vault).1
  | Delete i => confirm_delete_yes i vault
  end.

(** A credential as the dialog stores it: the three fields present,
    non-empty and without whitespace at either end. *)
Definition well_formed_credential (c : gmap string (list Z)) : Prop :=
  field "app" c <> [] /\ field "user" c <> [] /\ field "pass" c <> []
  /\ strip (field "app" c) = field "app" c
  /\ strip (field "user" c) = field "user" c
  /\ strip (field "pass" c) = field "pass" c.

(** Two credentials for the worked examples. *)
Definition credential (a u p : list Z) : gmap string (list Z) :=
  <["app" := a]> (<["user" := u]> (<["pass" := p]> ∅)).

Definition sample_credentials : gmap string (list (gmap string (list Z))) :=
  add (credential (txt "Mail") (txt "ann@example.org") (txt "pw2"))
    (add (credential (txt "Bank") (txt "ann") (txt "pw1")) ∅).

(** ** More of the application *)

(** The text [update_countdown] shows: [divmod(remaining, 60)], minutes
    only when there are some. *)
Inductive Countdown :=
| MinSec (mins secs : Z)
| Sec (secs : Z).

Definition countdown_text (remaining : Z) : Countdown :=
  let mins := remaining / 60 in
  let secs := remaining mod 60 in
  if 0 <? mins then MinSec mins secs else Sec secs.

(** The last setup page ([_build_setup_final]) keeps the same local state
    as the verification page: the dictionary [verified], [current_step] and
    the two texts, all new when the page is built.  [_check_all_verified] is
    the only caller of [_complete_setup]; the page on screen is written
    [SetupStep 6] while setup is not complete.  The page fills its content
    area once, from [_get_current_ui()] at step 0, and no handler assigns it
    again, so the passkey form is the form on screen. *)
Definition _check_all_verified (salt answer_salt : list Z) (self : App) (s : Session)
    : option (App * Page * Session) :=
  all_verified ← py_and (py_and (verified s !! "passkey") (verified s !! "voice"))
                        (verified s !! "face");
  all_verified ← (if is_mobile then py_and (Some all_verified) (verified s !! "fingerprint")
                  else Some all_verified);
  if all_verified : bool then
    r ← _complete_setup salt answer_salt self;
    Some (r, s)
  else Some (self, SetupStep 6, s).

Definition _next_verification (salt answer_salt : list Z) (self : App) (s : Session)
    : option (App * Page * Session) :=
  _check_all_verified salt answer_salt self (set_step (current_step s + 1) s).

Definition setup_final_verify_passkey (salt answer_salt entered : list Z) (self : App)
    (s : Session) : option (App * Page * Session) :=
  if bool_decide (VStr (strip entered) = default (VStr []) (_setup_data self !! "passkey"))
  then _next_verification salt answer_salt self (set_err Blank (set_verified "passkey" s))
  else Some (self, SetupStep 6, set_err (T "passkey_failed") s).

(** Passkeys entered one after the other in the form of the last setup
    page, for as long as the page stays. *)
Fixpoint setup_final_passkeys (salt answer_salt : list Z) (entries : list (list Z))
    (self : App) (s : Session) : option (App * Page * Session) :=
  match entries with
  | [] => Some (self, SetupStep 6, s)
  | entered :: entries =>
      r ← setup_final_verify_passkey salt answer_salt entered self s;
      match r.1.2 with
      | SetupStep _ => setup_final_passkeys salt answer_salt entries r.1.1 r.2
      | _ => Some r
      end
  end.

(** [_yes] of [_confirm_reset]: the three boxes are emptied and setup
    starts again.  The attributes of the object are left as they are. *)
Definition confirm_reset_yes (self : App) (vault : gmap string (list (gmap string (list Z))))
    (settings : gmap string value)
    : (App * Page) * gmap string (list (gmap string (list Z))) * gmap string value :=
  (_build_setup_step1 (with_auth clear_all self), ∅, clear_all settings).

(** The secrets on the shelf are those of [self0], and the page is neither
    the vault nor a session with the passkey verified. *)
Definition sealed (self0 : App) (st : App * Page) : Prop :=
  (forall key, key <> "lockout_count" -> key <> "lockout_until" ->
               key <> "failed_attempts" -> auth st.1 !! key = auth self0 !! key)
  /\ match st.2 with
     | VaultPage => False
     | VerificationPage s => verified s !! "passkey" <> Some true
     | _ => True
     end.

(** Events that cannot open the vault by themselves: a passkey entry that
    does not verify against the secret of [self0], a recovery attempt whose
    answer does not verify, the timer, a restart, and the later factors. *)
Definition powerless (self0 : App) (ev : Event) : Prop :=
  match ev with
  | Verify (EnterPasskey _ entered) => _verify_passkey self0 (strip entered) = Some false
  | Recover _ answer _ _ _ => _verify_secret_answer self0 answer = Some false
  | _ => True
  end.

(** ** Properties *)

(** *** The hash functions against published vectors

    SHA-256 of ["abc"] (FIPS 180-4) and HMAC-SHA256 test case 2 of
    RFC 4231. *)
Example sha256_abc :
  Sha256.hex (Sha256.digest (txt "abc"))
  = txt "ba7816bf8f01cfea414140de5dae2223b00361a396177a9cb410ff61f20015ad".
Proof. vm_compute. reflexivity. Qed.

Example hmac_sha256_rfc4231_2 :
  _hash_passkey (txt "what do ya want for nothing?") (txt "Jefe")
  = Some (txt "5bdcc146bf60754e6a042426089575c75a003f089d2739839dec58b964ec3843").
Proof. vm_compute. reflexivity. Qed.

Example strip_examples :
  strip (txt "  paris " ++ [0x3000; 0x0A]) = txt "paris"
  /\ strip (txt " a b ") = txt "a b" /\ strip (txt "   ") = [].
Proof. by vm_compute. Qed.

(** *** Text *)

Lemma lstrip_spaces (ws s : list Z) :
  Forall (fun c => isspace c = true) ws -> lstrip (ws ++ s) = lstrip s.
Proof.
  induction 1 as [|c ws Hc _ IH]; [done|].
  simpl. by rewrite Hc.
Qed.

Lemma lstrip_app_spaces (s ws : list Z) :
  Forall (fun c => isspace c = true) ws ->
  lstrip (s ++ ws) = match lstrip s with [] => [] | _ => lstrip s ++ ws end.
Proof.
  intros Hws. induction s as [|c s IH]; simpl.
  - rewrite <- (app_nil_r ws). by rewrite lstrip_spaces.
  - destruct (isspace c); [exact IH | done].
Qed.

Lemma lstrip_idemp (s : list Z) : lstrip (lstrip s) = lstrip s.
Proof.
  induction s as [|c s IH]; [done|].
  simpl. destruct (isspace c) eqn:Hc; [done|]. simpl. by rewrite Hc.
Qed.

Lemma rstrip_spaces (s ws : list Z) :
  Forall (fun c => isspace c = true) ws -> rstrip (s ++ ws) = rstrip s.
Proof.
  intros Hws. unfold rstrip. rewrite rev_app_distr, lstrip_spaces; [done|].
  apply Forall_forall. intros c Hc. apply list_elem_of_In, in_rev, list_elem_of_In in Hc.
  by eapply Forall_forall in Hws.
Qed.

Lemma rstrip_nil : rstrip [] = [].
Proof. done. Qed.

Lemma rstrip_idemp (s : list Z) : rstrip (rstrip s) = rstrip s.
Proof. unfold rstrip. by rewrite rev_involutive, lstrip_idemp. Qed.

(** Text padded with whitespace on both sides strips to the same text. *)
Lemma strip_padded (ws1 ws2 s : list Z) :
  Forall (fun c => isspace c = true) ws1 ->
  Forall (fun c => isspace c = true) ws2 ->
  strip (ws1 ++ s ++ ws2) = strip s.
Proof.
  intros H1 H2. unfold strip.
  rewrite lstrip_spaces, lstrip_app_spaces by done.
  destruct (lstrip s) eqn:E; [done|].
  by rewrite rstrip_spaces.
Qed.

(** [rstrip] keeps a prefix, so what [lstrip] left in front stays in front. *)
Lemma lstrip_fixed (c : Z) (s : list Z) : isspace c = false -> lstrip (c :: s) = c :: s.
Proof. intros Hc. simpl. by rewrite Hc. Qed.

Lemma rstrip_snoc (s : list Z) (c : Z) :
  rstrip (s ++ [c]) = if isspace c then rstrip s else s ++ [c].
Proof.
  unfold rstrip. rewrite rev_app_distr. simpl.
  destruct (isspace c); [done|]. simpl. by rewrite rev_involutive.
Qed.

Lemma rstrip_cons_head (c : Z) (s : list Z) :
  isspace c = false -> exists s', rstrip (c :: s) = c :: s'.
Proof.
  intros Hc. induction s as [|d s IH] using rev_ind.
  - exists []. change [c] with ([] ++ [c]). by rewrite rstrip_snoc, Hc.
  - rewrite app_comm_cons, rstrip_snoc. destruct (isspace d); [done|].
    by exists (s ++ [d]).
Qed.

Lemma lstrip_head (s : list Z) :
  lstrip s = [] \/ exists c s', lstrip s = c :: s' /\ isspace c = false.
Proof.
  induction s as [|c s IH]; [by left|].
  simpl. destruct (isspace c) eqn:Hc; [done|]. right. by exists c, s.
Qed.

Lemma strip_idemp (s : list Z) : strip (strip s) = strip s.
Proof.
  unfold strip. destruct (lstrip_head s) as [E|(c & s' & E & Hc)]; rewrite E.
  - done.
  - destruct (rstrip_cons_head c s' Hc) as [t Ht]. rewrite Ht.
    rewrite lstrip_fixed by done. rewrite <- Ht. apply rstrip_idemp.
Qed.

(** *** Digests *)

Lemma bytes_of_word_bytes (w : Z) :
  Forall (fun b => 0 <= b < 256) (Sha256.bytes_of_word w).
Proof.
  unfold Sha256.bytes_of_word.
  repeat constructor; apply Z.mod_pos_bound; lia.
Qed.

Lemma digest_bytes (m : list Z) : Forall (fun b => 0 <= b < 256) (Sha256.digest m).
Proof.
  unfold Sha256.digest. generalize (foldl Sha256.compress Sha256.init
    (Sha256.chunks (length (Sha256.pad m)) 64 (Sha256.pad m))).
  intros r. apply Forall_bind, Forall_forall. intros w _. apply bytes_of_word_bytes.
Qed.

Lemma digest_length (m : list Z) : length (Sha256.digest m) = 32%nat.
Proof.
  unfold Sha256.digest. generalize (foldl Sha256.compress Sha256.init
    (Sha256.chunks (length (Sha256.pad m)) 64 (Sha256.pad m))).
  intros r. reflexivity.
Qed.

Lemma hexchar_digit (d : Z) : 0 <= d < 16 -> Sha256.hexchar d ∈ hexdigits.
Proof.
  intros Hd. assert (Hcases : d ∈ (seqZ 0 16)) by (apply elem_of_seqZ; lia).
  clear Hd. vm_compute in Hcases. unfold Sha256.hexchar, hexdigits.
  repeat (apply elem_of_cons in Hcases as [->|Hcases]; [vm_compute; set_solver|]).
  by apply elem_of_nil in Hcases.
Qed.

Lemma hex_digits (bs : list Z) :
  Forall (fun b => 0 <= b < 256) bs -> Forall (fun c => c ∈ hexdigits) (Sha256.hex bs).
Proof.
  intros Hbs. unfold Sha256.hex. apply Forall_bind. eapply Forall_impl; [exact Hbs|].
  intros b Hb. cbv beta in Hb |- *.
  apply Forall_cons_2; [|apply Forall_cons_2; [|constructor]]; apply hexchar_digit.
  - split; [apply Z.div_pos; lia | apply Z.div_lt_upper_bound; lia].
  - apply Z.mod_pos_bound. lia.
Qed.

Lemma hex_length (bs : list Z) : length (Sha256.hex bs) = (2 * length bs)%nat.
Proof.
  unfold Sha256.hex. induction bs as [|b bs IH]; [done|].
  cbn [mbind list_bind]. rewrite length_app, IH. simpl. lia.
Qed.

Lemma hexdigits_isascii (h : list Z) : Forall (fun c => c ∈ hexdigits) h -> isascii h = true.
Proof.
  intros Hh. unfold isascii. apply forallb_forall. intros c Hc.
  apply list_elem_of_In in Hc. eapply Forall_forall in Hh; [|exact Hc].
  unfold hexdigits in Hh. 
  repeat (apply elem_of_cons in Hh as [->|Hh]; [done|]).
  by apply elem_of_nil in Hh.
Qed.

(** A keyed hash is sixty-four lower-case hexadecimal digits. *)
Lemma hash_passkey_shape (passkey salt h : list Z) :
  _hash_passkey passkey salt = Some h ->
  length h = 64%nat /\ Forall (fun c => c ∈ hexdigits) h.
Proof.
  unfold _hash_passkey. intros H.
  destruct (encode salt) as [k|]; [|done]. destruct (encode passkey) as [m|]; [|done].
  change (Some (Sha256.hex (Sha256.hmac k m)) = Some h) in H.
  apply (inj Some) in H. subst h. split.
  - rewrite hex_length. unfold Sha256.hmac. by rewrite digest_length.
  - apply hex_digits. unfold Sha256.hmac. apply digest_bytes.
Qed.

Lemma compare_digest_refl (h : list Z) : isascii h = true -> compare_digest h h = Some true.
Proof.
  intros Hh. unfold compare_digest. rewrite Hh. simpl. by rewrite bool_decide_eq_true_2.
Qed.
(** *** The shelf and the pages *)

Lemma get_put (key : string) (d v : value) (box : gmap string value) :
  get key d (put key v box) = v.
Proof. unfold get, put. by rewrite lookup_insert_eq. Qed.

Lemma get_put_ne (key key' : string) (d v : value) (box : gmap string value) :
  key' <> key -> get key d (put key' v box) = get key d box.
Proof. intros Hne. unfold get, put. by rewrite lookup_insert_ne. Qed.

(** [_verify_passkey] reads two keys of the shelf and nothing else. *)
Lemma verify_passkey_frame (self self' : App) (passkey : list Z) :
  auth self' !! "salt" = auth self !! "salt" ->
  auth self' !! "pass_hash" = auth self !! "pass_hash" ->
  _verify_passkey self' passkey = _verify_passkey self passkey.
Proof. unfold _verify_passkey, get. by intros -> ->. Qed.

Lemma lockout_time_bounds (n : Z) : 1 <= n -> 60 <= lockout_time n <= 3600.
Proof.
  intros Hn. unfold lockout_time, LOCKOUT_BASE_TIME, LOCKOUT_MULTIPLIER, MAX_LOCKOUT_TIME.
  assert (1 <= 2 ^ (n - 1)) by (apply (Z.pow_le_mono_r 2 0); lia). lia.
Qed.

Lemma lockout_time_cap (n : Z) : lockout_time n <= 3600.
Proof. unfold lockout_time, MAX_LOCKOUT_TIME. lia. Qed.

(** What [_apply_lockout] leaves behind when the shelf holds a count. *)
Lemma apply_lockout_spec (now c : Z) (self : App) :
  get "lockout_count" (VInt 0) (auth self) = VInt c -> 0 <= c ->
  exists self',
    _apply_lockout now self = Some self' /\
    _lockout_until self' = Some (now + timedelta_seconds (lockout_time (c + 1))) /\
    _lockout_count self' = c + 1 /\
    _failed_attempts self' = 0 /\
    get "lockout_count" VNone (auth self') = VInt (c + 1) /\
    get "lockout_until" VNone (auth self')
      = VIso (now + timedelta_seconds (lockout_time (c + 1))) /\
    get "failed_attempts" VNone (auth self') = VInt 0 /\
    auth self' !! "salt" = auth self !! "salt" /\
    auth self' !! "pass_hash" = auth self !! "pass_hash".
Proof.
  intros Hc Hpos. unfold _apply_lockout. rewrite Hc. cbn [as_int mbind option_bind].
  destruct (Z.ltb_spec (c + 1 - 1) 0); [lia|].
  eexists. split; [reflexivity|]. unfold get, put. cbn.
  by simplify_map_eq.
Qed.

Lemma remaining_spec (now u : Z) (self : App) :
  _lockout_until self = Some u ->
  _get_lockout_remaining now self = Z.max 0 ((u - now) ÷ 1000000).
Proof. unfold _get_lockout_remaining. by intros ->. Qed.

Lemma is_locked_out_spec (now u : Z) (self : App) :
  _lockout_until self = Some u -> _is_locked_out now self = (now <? u, self).
Proof. intros H. unfold _is_locked_out. rewrite H. cbv zeta. by rewrite H. Qed.

Lemma update_countdown_locked (k : nat) (now : Z) (self : App) :
  0 < _get_lockout_remaining now self ->
  update_countdown (S k) now self = Some (self, LockoutPage).
Proof.
  intros H. cbn [update_countdown].
  by destruct (Z.ltb_spec 0 (_get_lockout_remaining now self)); [|lia].
Qed.

Lemma is_locked_out_clear (now : Z) (self : App) :
  _is_locked_out now (_clear_lockout self) = (false, _clear_lockout self).
Proof. unfold _is_locked_out, _clear_lockout, get, put. cbn. by simplify_map_eq. Qed.

Lemma build_verification_after_clear (k : nat) (now : Z) (self : App) :
  _build_verification_page (S k) now (_clear_lockout self)
  = Some (_clear_lockout self, VerificationPage fresh_session).
Proof. cbn [_build_verification_page]. by rewrite is_locked_out_clear. Qed.

Lemma update_countdown_expired (k : nat) (now : Z) (self : App) :
  _get_lockout_remaining now self <= 0 ->
  update_countdown (S (S k)) now self
  = Some (_clear_lockout self, VerificationPage fresh_session).
Proof.
  intros H. cbn [update_countdown].
  destruct (Z.ltb_spec 0 (_get_lockout_remaining now self)); [lia|].
  apply build_verification_after_clear.
Qed.

(** Three units of fuel always build a page. *)
Lemma pages_total (k : nat) (now : Z) (self : App) :
  is_Some (update_countdown (S (S k)) now self)
  /\ is_Some (_build_verification_page (S (S (S k))) now self).
Proof.
  assert (Hu : forall a, is_Some (update_countdown (S (S k)) now a)).
  { intros a. destruct (Z.lt_ge_cases 0 (_get_lockout_remaining now a)).
    - by rewrite update_countdown_locked.
    - by rewrite update_countdown_expired by lia. }
  split; [apply Hu|].
  cbn [_build_verification_page]. destruct (_is_locked_out now self) as [[] a]; [apply Hu|done].
Qed.

(** *** The passkey step *)

(** A wrong passkey that does not exhaust the attempts is counted, in
    memory and on the shelf, and the form stays. *)
Lemma login_wrong_passkey (now : Z) (entered : list Z) (self : App) (s : Session) :
  _failed_attempts self + 1 < MAX_ATTEMPTS ->
  _verify_passkey self (strip entered) = Some false ->
  login_verify_passkey now entered self s
  = Some (with_auth (put "failed_attempts" (VInt (_failed_attempts self + 1)))
            (set_failed_attempts (_failed_attempts self + 1) self),
          VerificationPage
            (set_err (WrongPass (MAX_ATTEMPTS - (_failed_attempts self + 1))) s)).
Proof.
  intros Hn Hv. unfold login_verify_passkey.
  destruct (Z.leb_spec MAX_ATTEMPTS (_failed_attempts self)); [lia|].
  rewrite Hv. cbn [mbind option_bind _failed_attempts with_auth set_failed_attempts].
  by destruct (Z.leb_spec (MAX_ATTEMPTS - (_failed_attempts self + 1)) 0); [lia|].
Qed.

(** The wrong passkey that exhausts the attempts locks the vault for the
    window of the next lockout count. *)
Lemma login_last_wrong_passkey (now c : Z) (entered : list Z) (self : App) (s : Session) :
  _failed_attempts self < MAX_ATTEMPTS <= _failed_attempts self + 1 ->
  _verify_passkey self (strip entered) = Some false ->
  get "lockout_count" (VInt 0) (auth self) = VInt c -> 0 <= c ->
  exists self',
    login_verify_passkey now entered self s = Some (self', LockoutPage) /\
    _lockout_until self' = Some (now + timedelta_seconds (lockout_time (c + 1))) /\
    _failed_attempts self' = 0 /\
    get "lockout_count" VNone (auth self') = VInt (c + 1) /\
    get "lockout_until" VNone (auth self')
      = VIso (now + timedelta_seconds (lockout_time (c + 1))) /\
    get "failed_attempts" VNone (auth self') = VInt 0 /\
    auth self' !! "salt" = auth self !! "salt" /\
    auth self' !! "pass_hash" = auth self !! "pass_hash".
Proof.
  intros Hn Hv Hc Hpos. unfold login_verify_passkey.
  destruct (Z.leb_spec MAX_ATTEMPTS (_failed_attempts self)); [lia|].
  rewrite Hv. cbn [mbind option_bind _failed_attempts with_auth set_failed_attempts].
  destruct (Z.leb_spec (MAX_ATTEMPTS - (_failed_attempts self + 1)) 0); [|lia].
  set (self1 := with_auth _ _).
  destruct (apply_lockout_spec now c self1) as (self' & Ha & Hu & _ & Hf & Hlc & Hlu & Hfa & Hs & Hp);
    [by rewrite <- Hc; apply get_put_ne | done |].
  exists self'. rewrite Ha. cbn [mbind option_bind].
  unfold _build_lockout_page, page_fuel. rewrite update_countdown_locked.
  - repeat split; try done.
    + rewrite Hs. unfold self1, put. cbn. by rewrite lookup_insert_ne.
    + rewrite Hp. unfold self1, put. cbn. by rewrite lookup_insert_ne.
  - rewrite (remaining_spec _ _ _ Hu). pose proof (lockout_time_bounds (c + 1)).
    unfold timedelta_seconds.
    replace (now + lockout_time (c + 1) * 1000000 - now) with (lockout_time (c + 1) * 1000000) by lia.
    rewrite Z.quot_mul by lia. lia.
Qed.

(** Three wrong passkeys in a row, starting with no failure counted: the
    first two are counted and leave the form on screen, the third locks the
    vault for the window that follows the count [c] stored on the shelf. *)
Lemma three_wrong_passkeys
    (now1 now2 now3 c : Z) (e1 e2 e3 : list Z) (self : App) (s : Session) :
  _failed_attempts self = 0 ->
  get "lockout_count" (VInt 0) (auth self) = VInt c -> 0 <= c ->
  _verify_passkey self (strip e1) = Some false ->
  _verify_passkey self (strip e2) = Some false ->
  _verify_passkey self (strip e3) = Some false ->
  exists self1 self2 self3,
    login_verify_passkey now1 e1 self s
      = Some (self1, VerificationPage (set_err (WrongPass 2) s)) /\
    _failed_attempts self1 = 1 /\
    login_verify_passkey now2 e2 self1 (set_err (WrongPass 2) s)
      = Some (self2, VerificationPage (set_err (WrongPass 1) s)) /\
    _failed_attempts self2 = 2 /\
    login_verify_passkey now3 e3 self2 (set_err (WrongPass 1) s)
      = Some (self3, LockoutPage) /\
    _lockout_until self3 = Some (now3 + timedelta_seconds (lockout_time (c + 1))) /\
    _failed_attempts self3 = 0 /\
    get "lockout_count" VNone (auth self3) = VInt (c + 1).
Proof.
  intros Hf Hc Hpos Hv1 Hv2 Hv3.
  pose proof (login_wrong_passkey now1 e1 self s) as H1.
  rewrite Hf in H1. specialize (H1 ltac:(done) Hv1).
  set (self1 := with_auth _ _) in H1. set (s1 := set_err _ s) in H1.
  assert (Hs1 : auth self1 !! "salt" = auth self !! "salt")
    by (unfold self1, put; cbn; by rewrite lookup_insert_ne).
  assert (Hp1 : auth self1 !! "pass_hash" = auth self !! "pass_hash")
    by (unfold self1, put; cbn; by rewrite lookup_insert_ne).
  pose proof (login_wrong_passkey now2 e2 self1 s1) as H2.
  change (_failed_attempts self1) with (0 + 1) in H2.
  rewrite (verify_passkey_frame self self1) in H2 by done.
  specialize (H2 ltac:(done) Hv2).
  set (self2 := with_auth _ _) in H2. set (s2 := set_err _ s1) in H2.
  assert (Hs2 : auth self2 !! "salt" = auth self !! "salt")
    by (rewrite <- Hs1; unfold self2, put; cbn; by rewrite lookup_insert_ne).
  assert (Hp2 : auth self2 !! "pass_hash" = auth self !! "pass_hash")
    by (rewrite <- Hp1; unfold self2, put; cbn; by rewrite lookup_insert_ne).
  destruct (login_last_wrong_passkey now3 c e3 self2 s2)
    as (self3 & H3 & Hu & Hf3 & Hc3 & _);
    [by cbn | by rewrite (verify_passkey_frame self self2) | | done |].
  { etransitivity; [|exact Hc]. unfold self2, self1.
    cbn [auth with_auth set_failed_attempts]. by rewrite !get_put_ne. }
  by exists self1, self2, self3.
Qed.

(** C2. Starting with no failed attempt counted and no lockout recorded, the
    first two wrong passkeys leave the passkey form on screen with 1 and 2
    failures counted, and the third locks the vault: the lockout page is
    shown, [_is_locked_out] answers true until sixty seconds after the third
    attempt and false from then on, and the remaining time is 60 seconds at
    the moment of the lockout (59 or 60 during its first second). *)
Theorem C2_three_failures_lock_for_sixty_seconds
    (now1 now2 now3 : Z) (e1 e2 e3 : list Z) (self : App) (s : Session) :
  _failed_attempts self = 0 ->
  get "lockout_count" (VInt 0) (auth self) = VInt 0 ->
  _verify_passkey self (strip e1) = Some false ->
  _verify_passkey self (strip e2) = Some false ->
  _verify_passkey self (strip e3) = Some false ->
  exists self1 s1 self2 s2 self3,
    login_verify_passkey now1 e1 self s = Some (self1, VerificationPage s1) /\
    _failed_attempts self1 = 1 /\
    login_verify_passkey now2 e2 self1 s1 = Some (self2, VerificationPage s2) /\
    _failed_attempts self2 = 2 /\
    login_verify_passkey now3 e3 self2 s2 = Some (self3, LockoutPage) /\
    _lockout_until self3 = Some (now3 + timedelta_seconds 60) /\
    (forall t, (_is_locked_out t self3).1 = (t <? now3 + timedelta_seconds 60)) /\
    _get_lockout_remaining now3 self3 = 60 /\
    (forall t, now3 <= t < now3 + timedelta_seconds 1 ->
               59 <= _get_lockout_remaining t self3 <= 60).
Proof.
  intros Hf Hc Hv1 Hv2 Hv3.
  destruct (three_wrong_passkeys now1 now2 now3 0 e1 e2 e3 self s Hf Hc ltac:(done) Hv1 Hv2 Hv3)
    as (self1 & self2 & self3 & H1 & Hf1 & H2 & Hf2 & H3 & Hu & _).
  change (lockout_time (0 + 1)) with 60 in Hu.
  exists self1, (set_err (WrongPass 2) s), self2, (set_err (WrongPass 1) s), self3.
  repeat split; try done.
  - intros t. by rewrite (is_locked_out_spec _ _ _ Hu).
  - rewrite (remaining_spec _ _ _ Hu). unfold timedelta_seconds.
    replace (now3 + 60 * 1000000 - now3) with (60 * 1000000) by lia. by rewrite Z.quot_mul.
  - rewrite (remaining_spec _ _ _ Hu). unfold timedelta_seconds in *.
    assert (59 <= (now3 + 60 * 1000000 - t) ÷ 1000000) by (apply Z.quot_le_lower_bound; lia). lia.
  - rewrite (remaining_spec _ _ _ Hu). unfold timedelta_seconds in *.
    assert ((now3 + 60 * 1000000 - t) ÷ 1000000 <= 60) by (apply Z.quot_le_upper_bound; lia). lia.
Qed.

(** *** Sessions *)

Lemma session_ok_fresh : session_ok fresh_session.
Proof. unfold session_ok, fresh_session. cbn. by simplify_map_eq. Qed.

Lemma fresh_session_unverified (key : string) :
  verified fresh_session !! key <> Some true.
Proof.
  unfold fresh_session. cbn [verified]. rewrite !lookup_insert.
  repeat case_decide; done.
Qed.

Lemma session_ok_set_verified (k : string) (s : Session) :
  session_ok s -> session_ok (set_verified k s).
Proof.
  unfold session_ok, set_verified. cbn. intros (H1 & H2 & H3 & H4).
  repeat split; (rewrite lookup_insert; case_decide; [by eexists | done]).
Qed.

Lemma check_complete_ok (s : Session) :
  session_ok s ->
  _check_complete s = Some VaultPage \/ _check_complete s = Some (VerificationPage s).
Proof.
  intros ([p Hp] & [v Hv] & [f Hf] & [g Hg]). unfold _check_complete, py_and.
  rewrite Hp, Hv, Hf, Hg. destruct is_mobile, p, v, f, g; cbn; auto.
Qed.

Lemma next_step_ok (s : Session) :
  session_ok s ->
  _next_step s = Some VaultPage
  \/ _next_step s = Some (VerificationPage (set_step (current_step s + 1) s)).
Proof. intros H. unfold _next_step. by apply check_complete_ok. Qed.

(** C4. With fewer than [MAX_ATTEMPTS] failures counted, entering the right
    passkey succeeds and sets the failure counter to 0, in memory and on the
    shelf; the lockout count and the lockout deadline are left as they were,
    in memory and on the shelf, as is every other key of the shelf. *)
Theorem C4_success_resets_only_failed_attempts
    (now : Z) (entered : list Z) (self : App) (s : Session) :
  _failed_attempts self < MAX_ATTEMPTS ->
  _verify_passkey self (strip entered) = Some true ->
  session_ok s ->
  exists self' page,
    login_verify_passkey now entered self s = Some (self', page) /\
    _failed_attempts self' = 0 /\
    get "failed_attempts" VNone (auth self') = VInt 0 /\
    _lockout_count self' = _lockout_count self /\
    _lockout_until self' = _lockout_until self /\
    auth self' !! "lockout_count" = auth self !! "lockout_count" /\
    auth self' !! "lockout_until" = auth self !! "lockout_until" /\
    (forall key, key <> "failed_attempts" -> auth self' !! key = auth self !! key).
Proof.
  intros Hn Hv Hs. unfold login_verify_passkey.
  destruct (Z.leb_spec MAX_ATTEMPTS (_failed_attempts self)); [lia|].
  rewrite Hv. cbn [mbind option_bind].
  assert (Hs' : session_ok (set_err Blank (set_verified "passkey" s)))
    by exact (session_ok_set_verified "passkey" s Hs).
  destruct (next_step_ok _ Hs') as [-> | ->]; cbn [mbind option_bind];
    eexists _, _; (split; [reflexivity|]); cbn; unfold get, put;
    (repeat split; [by rewrite lookup_insert_eq | by rewrite lookup_insert_ne
                   | by rewrite lookup_insert_ne
                   | by intros key Hk; rewrite lookup_insert_ne]).
Qed.

(** *** Counting digests *)

Lemma elem_of_words (alphabet : list Z) (n : nat) (w : list Z) :
  w ∈ words alphabet n <-> length w = n /\ Forall (fun c => c ∈ alphabet) w.
Proof.
  revert w. induction n as [|n IH]; intros w; cbn [words].
  - rewrite list_elem_of_singleton. split.
    + by intros ->.
    + by intros [->%nil_length_inv _].
  - rewrite list_elem_of_bind. split.
    + intros (c & Hw & Hc). apply list_elem_of_fmap in Hw as (w' & -> & Hw').
      apply IH in Hw' as [Hl Hf]. split; [cbn; lia | by constructor].
    + intros [Hl Hf]. destruct w as [|c w']; [done|].
      apply Forall_cons in Hf as [Hc Hf]. exists c. split; [|done].
      apply list_elem_of_fmap. exists w'. split; [done|].
      apply IH. split; [cbn in Hl; lia | done].
Qed.

Lemma length_bind_cons (cs : list Z) (ws : list (list Z)) :
  length (c ← cs; (cons c <$> ws)) = (length cs * length ws)%nat.
Proof.
  induction cs as [|c cs IH]; [done|].
  rewrite bind_cons, length_app, length_fmap, IH. cbn [length]. lia.
Qed.

Lemma words_length (alphabet : list Z) (n : nat) :
  length (words alphabet n) = (length alphabet ^ n)%nat.
Proof.
  induction n as [|n IH]; [done|].
  cbn [words Nat.pow]. by rewrite length_bind_cons, IH.
Qed.

Lemma words_NoDup (alphabet : list Z) (n : nat) :
  NoDup alphabet -> NoDup (words alphabet n).
Proof.
  intros Hnd. induction n as [|n IH]; cbn [words]; [apply NoDup_singleton|].
  apply NoDup_bind; [| |done].
  - intros c1 c2 w _ _ (w1 & -> & _)%list_elem_of_fmap (w2 & Heq & _)%list_elem_of_fmap.
    congruence.
  - intros c _. apply NoDup_fmap_2_strong; [|done]. congruence.
Qed.

(** No function sends the texts of length [n + 1] one-to-one into the
    texts of length [n] over the same alphabet of two or more characters. *)
Lemma no_injection_into_shorter_words (alphabet : list Z) (n : nat)
    (f : list Z -> list Z) :
  NoDup alphabet -> (2 <= length alphabet)%nat ->
  (forall w, w ∈ words alphabet (S n) -> f w ∈ words alphabet n) ->
  ~ (forall x y, x ∈ words alphabet (S n) -> y ∈ words alphabet (S n) ->
                 f x = f y -> x = y).
Proof.
  intros Hnd Hlen Hf Hinj.
  assert (Hle : (length (f <$> words alphabet (S n)) <= length (words alphabet n))%nat).
  { apply submseteq_length, NoDup_submseteq.
    - apply NoDup_fmap_2_strong; [exact Hinj | by apply words_NoDup].
    - intros w (x & -> & Hx)%list_elem_of_fmap. by apply Hf. }
  rewrite length_fmap, !words_length in Hle. cbn [Nat.pow] in Hle.
  assert (length alphabet ^ n <> 0)%nat by (apply Nat.pow_nonzero; lia).
  nia.
Qed.

Lemma utf8_char_ascii (c : Z) : 0 <= c < 128 -> utf8_char c = Some [c].
Proof.
  intros Hc. unfold utf8_char.
  destruct (Z.ltb_spec c 0); [lia|]. by destruct (Z.ltb_spec c 128); [|lia].
Qed.

Lemma encode_ascii (s : list Z) : isascii s = true -> encode s = Some s.
Proof.
  unfold encode, isascii. induction s as [|c s IH]; [done|].
  cbn [forallb]. intros [Hc Hs]%andb_true_iff. specialize (IH Hs).
  cbn [mapM]. rewrite utf8_char_ascii by lia. cbn [mbind option_bind].
  destruct (mapM utf8_char s) as [k|]; [|done].
  change (Some (mjoin k) = Some s) in IH. apply (inj Some) in IH. by subst s.
Qed.

Lemma hash_passkey_ascii (passkey salt : list Z) :
  isascii passkey = true -> isascii salt = true ->
  _hash_passkey passkey salt
  = Some (Sha256.hex (Sha256.hmac salt passkey)).
Proof.
  intros Hp Hs. unfold _hash_passkey. by rewrite (encode_ascii _ Hs), (encode_ascii _ Hp).
Qed.

(** *** Passkeys *)

(** After [_save_passkey], verification compares the candidate's keyed hash
    with the stored one. *)
Lemma verify_after_save (salt p p' h h' : list Z) (self self' : App) :
  _save_passkey salt p self = Some self' ->
  _hash_passkey p salt = Some h ->
  _hash_passkey p' salt = Some h' ->
  _verify_passkey self' p' = Some (bool_decide (h' = h)).
Proof.
  unfold _save_passkey, _verify_passkey. intros Hsave Hh Hh'.
  rewrite Hh in Hsave. cbn [mbind option_bind] in Hsave. apply (inj Some) in Hsave.
  subst self'. cbn [auth with_auth].
  repeat (rewrite get_put || rewrite get_put_ne by done).
  cbn [as_str mbind option_bind]. rewrite Hh'. cbn [mbind option_bind].
  unfold compare_digest.
  destruct (hash_passkey_shape _ _ _ Hh) as [_ Ha].
  destruct (hash_passkey_shape _ _ _ Hh') as [_ Ha'].
  by rewrite (hexdigits_isascii _ Ha), (hexdigits_isascii _ Ha').
Qed.

Lemma save_passkey_hash (salt p : list Z) (self self' : App) :
  _save_passkey salt p self = Some self' ->
  exists h, _hash_passkey p salt = Some h
            /\ self' = with_auth (put "pass_hash" (VStr h))
                         (with_auth (put "salt" (VStr salt)) self).
Proof.
  unfold _save_passkey. intros Hsave.
  destruct (_hash_passkey p salt) as [h|]; [|done].
  cbn [mbind option_bind] in Hsave. apply (inj Some) in Hsave. by exists h.
Qed.

(** C6 (as amended). The passkey a secret was created from verifies against
    it; any other candidate verifies exactly when its keyed hash under the
    stored salt equals the stored hash, so it is rejected whenever the two
    hashes differ. *)
Theorem C6_verify_compares_keyed_hashes
    (salt p : list Z) (self self' : App) :
  _save_passkey salt p self = Some self' ->
  _verify_passkey self' p = Some true
  /\ (forall p' h h',
        _hash_passkey p salt = Some h -> _hash_passkey p' salt = Some h' ->
        _verify_passkey self' p' = Some (bool_decide (h' = h))
        /\ (h' <> h -> _verify_passkey self' p' = Some false)).
Proof.
  intros Hsave. destruct (save_passkey_hash _ _ _ _ Hsave) as (h & Hh & _). split.
  - rewrite (verify_after_save _ _ _ _ _ _ _ Hsave Hh Hh). by rewrite bool_decide_eq_true_2.
  - intros p' h1 h' Hh1 Hh'. rewrite (verify_after_save _ _ _ _ _ _ _ Hsave Hh1 Hh').
    split; [done|]. intros Hne. by rewrite bool_decide_eq_false_2.
Qed.

(** C6 (as stated) fails: HMAC-SHA256 digests are 64 hexadecimal digits,
    fewer than there are passkeys of 65 hexadecimal digits, so two different
    passkeys share their keyed hash under the sample salt and each verifies
    against the secret created from the other. *)
Lemma C6_two_passkeys_share_a_secret :
  ~ ((forall salt p self self',
        _save_passkey salt p self = Some self' -> _verify_passkey self' p = Some true)
     /\ (forall salt p p' self self',
           _save_passkey salt p self = Some self' -> p' <> p ->
           _verify_passkey self' p' = Some false)).
Proof.
  intros [_ Hclaim].
  set (f := fun p => Sha256.hex (Sha256.hmac sample_salt p)).
  assert (Hsalt : isascii sample_salt = true) by done.
  assert (Hhash : forall w n, w ∈ words hexdigits n -> _hash_passkey w sample_salt = Some (f w)).
  { intros w n [_ Hw]%elem_of_words. apply hash_passkey_ascii; [|done].
    by apply hexdigits_isascii. }
  apply (no_injection_into_shorter_words hexdigits 64 f).
  - unfold hexdigits. apply (bool_decide_unpack _). by vm_compute.
  - unfold hexdigits. cbn [length]. lia.
  - intros w Hw. apply elem_of_words.
    destruct (hash_passkey_shape _ _ _ (Hhash _ _ Hw)) as [Hl Hd]. done.
  - intros x y Hx Hy Hxy. destruct (decide (y = x)) as [->|Hne]; [done|]. exfalso.
    pose proof (Hhash _ _ Hx) as Hhx. pose proof (Hhash _ _ Hy) as Hhy.
    assert (Hsave : _save_passkey sample_salt x (__init__ ∅)
                    = Some (with_auth (put "pass_hash" (VStr (f x)))
                              (with_auth (put "salt" (VStr sample_salt)) (__init__ ∅))))
      by (unfold _save_passkey; by rewrite Hhx).
    specialize (Hclaim _ _ _ _ _ Hsave Hne).
    rewrite (verify_after_save _ _ _ _ _ _ _ Hsave Hhx Hhy) in Hclaim.
    rewrite bool_decide_eq_true_2 in Hclaim by (symmetry; exact Hxy).
    discriminate Hclaim.
Qed.

(** C7. Changing the passkey checks the current one first: when the
    (stripped) current passkey does not verify, the handler reports
    ["wrong_current"] whatever the new passkey is, and the object, with its
    shelf, stays as it was.  When it verifies, the new passkey has at least
    four characters and was typed the same in both fields, the handler does
    what [_save_passkey] does with the drawn salt: the shelf then holds that
    salt and the keyed hash of the new passkey, which verifies from then on. *)
Theorem C7_change_passkey_checks_current_first
    (salt current new confirm : list Z) (self : App) :
  (_verify_passkey self (strip current) = Some false ->
     change_passkey_save salt current new confirm self = Some (self, T "wrong_current"))
  /\ (forall h,
        _verify_passkey self (strip current) = Some true ->
        (4 <= length (strip new))%nat ->
        strip confirm = strip new ->
        _hash_passkey (strip new) salt = Some h ->
        exists self',
          change_passkey_save salt current new confirm self
            = Some (self', T "passkey_changed")
          /\ _save_passkey salt (strip new) self = Some self'
          /\ get "salt" VNone (auth self') = VStr salt
          /\ get "pass_hash" VNone (auth self') = VStr h
          /\ _verify_passkey self' (strip new) = Some true).
Proof.
  split.
  - intros Hv. unfold change_passkey_save. by rewrite Hv.
  - intros h Hv Hlen Hconf Hh. unfold change_passkey_save. rewrite Hv, Hconf.
    cbn [mbind option_bind negb].
    destruct (Z.ltb_spec (Z.of_nat (length (strip new))) 4); [lia|].
    rewrite bool_decide_eq_true_2 by done. cbn [negb].
    assert (Hsave : _save_passkey salt (strip new) self
                    = Some (with_auth (put "pass_hash" (VStr h))
                              (with_auth (put "salt" (VStr salt)) self)))
      by (unfold _save_passkey; by rewrite Hh).
    rewrite Hsave. eexists. split; [reflexivity|]. split; [done|].
    cbn [auth with_auth]. repeat (rewrite get_put || rewrite get_put_ne by done).
    split; [done|]. split; [done|].
    rewrite (verify_after_save _ _ _ _ _ _ _ Hsave Hh Hh). by rewrite bool_decide_eq_true_2.
Qed.

(** *** The sequencer *)

(** A restart with a passkey on the shelf builds the verification page over
    a new object that holds the stored failure count. *)
Lemma restart_with_passkey (now n : Z) (self : App) :
  _has_passkey self = true ->
  get "failed_attempts" (VInt 0) (auth self) = VInt n ->
  restart now self
  = _build_verification_page page_fuel now (mkApp (auth self) n None 0 ∅).
Proof.
  intros Hpass Hfail. unfold restart, main.
  change (auth (__init__ (auth self))) with (auth self). rewrite Hfail.
  cbn [as_int mbind option_bind].
  change (_has_passkey (set_failed_attempts n (__init__ (auth self))))
    with (_has_passkey self).
  by rewrite Hpass.
Qed.

(** The first lockout test of a new object loads the stored deadline. *)
Lemma is_locked_out_loads_deadline (now u n : Z) (box setup : gmap string value) :
  get "lockout_until" VNone box = VIso u ->
  _is_locked_out now (mkApp box n None 0 setup)
  = (now <? u, mkApp box n (Some u) 0 setup).
Proof. intros Hu. unfold _is_locked_out. cbn [_lockout_until auth]. by rewrite Hu. Qed.

Lemma check_complete_page (s s' : Session) :
  _check_complete s = Some (VerificationPage s') -> s' = s.
Proof.
  unfold _check_complete. intros H.
  destruct (py_and _ _) as [b|]; [|done]. cbn [mbind option_bind] in H.
  destruct is_mobile.
  - destruct (py_and _ _) as [b'|]; [|done]. cbn [mbind option_bind] in H.
    destruct b'; by simplify_eq.
  - cbn [mbind option_bind] in H. destruct b; by simplify_eq.
Qed.

Lemma set_verified_grows (k key : string) (s : Session) :
  verified s !! key = Some true -> verified (set_verified k s) !! key = Some true.
Proof.
  intros H. cbn [verified set_verified]. rewrite lookup_insert.
  by case_decide.
Qed.

Lemma apply_lockout_inv (now : Z) (self self' : App) :
  _apply_lockout now self = Some self' ->
  exists c, get "lockout_count" (VInt 0) (auth self) = VInt c /\ 0 <= c.
Proof.
  unfold _apply_lockout. intros H.
  destruct (get "lockout_count" (VInt 0) (auth self)) as [|c| |]; try done.
  cbn [as_int mbind option_bind] in H. exists c. split; [done|].
  destruct (Z.ltb_spec (c + 1 - 1) 0); [done|lia].
Qed.

(** Right after [_apply_lockout] the countdown has time left, so the
    lockout page stays. *)
Lemma lockout_page_after_apply (now : Z) (self self' : App) :
  _apply_lockout now self = Some self' ->
  _build_lockout_page page_fuel now self' = Some (self', LockoutPage).
Proof.
  intros H. destruct (apply_lockout_inv _ _ _ H) as (c & Hc & Hpos).
  destruct (apply_lockout_spec now c self Hc Hpos) as (a & Ha & Hu & _).
  rewrite H in Ha. apply (inj Some) in Ha. subst a.
  unfold _build_lockout_page, page_fuel. apply update_countdown_locked.
  rewrite (remaining_spec _ _ _ Hu). pose proof (lockout_time_bounds (c + 1)).
  unfold timedelta_seconds.
  replace (now + lockout_time (c + 1) * 1000000 - now)
    with (lockout_time (c + 1) * 1000000) by lia.
  rewrite Z.quot_mul by lia. lia.
Qed.

Lemma login_verify_passkey_grows (now : Z) (entered : list Z) (self self' : App)
    (s s' : Session) (key : string) :
  login_verify_passkey now entered self s = Some (self', VerificationPage s') ->
  verified s !! key = Some true -> verified s' !! key = Some true.
Proof.
  unfold login_verify_passkey. intros Hstep Hkey.
  destruct (MAX_ATTEMPTS <=? _failed_attempts self).
  { destruct (_apply_lockout now self) as [a|] eqn:Ha; [|done].
    cbn [mbind option_bind] in Hstep.
    rewrite (lockout_page_after_apply _ _ _ Ha) in Hstep. by simplify_eq. }
  destruct (_verify_passkey self (strip entered)) as [[]|]; [| |done];
    cbn [mbind option_bind] in Hstep.
  - unfold _next_step in Hstep.
    destruct (_check_complete _) as [p|] eqn:Hp; [|done].
    cbn [mbind option_bind] in Hstep. simplify_eq.
    apply check_complete_page in Hp. subst s'. by apply set_verified_grows.
  - destruct (_ <=? 0).
    + destruct (_apply_lockout now _) as [a|] eqn:Ha; [|done].
      cbn [mbind option_bind] in Hstep.
      rewrite (lockout_page_after_apply _ _ _ Ha) in Hstep. by simplify_eq.
    + by simplify_eq.
Qed.

Lemma next_step_grows (k key : string) (t : text) (s s' : Session) :
  _next_step (set_status t (set_verified k s)) = Some (VerificationPage s') ->
  verified s !! key = Some true -> verified s' !! key = Some true.
Proof.
  unfold _next_step. intros Hp%check_complete_page Hkey. subst s'.
  by apply set_verified_grows.
Qed.

(** C8. Within a session the verified factors only grow: whenever a step
    of the sequencer (passkey, voice, face or fingerprint handler) leaves the
    verification page on screen, every factor that was verified before is
    verified after.  The session is not kept across a restart: a restart
    reads nothing but the shelf, and a verification page it shows starts
    with no factor verified.  The lockout state on the shelf does survive:
    restarted at least a second before a stored deadline, the application
    shows the lockout page with that deadline and the stored failure count,
    and the shelf unchanged. *)
Theorem C8_verified_grows_and_is_not_persisted :
  (forall f self s self' s' key,
     sequencer_step f self s = Some (self', VerificationPage s') ->
     verified s !! key = Some true -> verified s' !! key = Some true)
  /\ (forall now self1 self2,
        auth self1 = auth self2 -> restart now self1 = restart now self2)
  /\ (forall now self self' s' key,
        restart now self = Some (self', VerificationPage s') ->
        s' = fresh_session /\ verified s' !! key <> Some true)
  /\ (forall now u n self,
        _has_passkey self = true ->
        get "failed_attempts" (VInt 0) (auth self) = VInt n ->
        get "lockout_until" VNone (auth self) = VIso u ->
        now + timedelta_seconds 1 <= u ->
        restart now self = Some (mkApp (auth self) n (Some u) 0 ∅, LockoutPage)).
Proof.
  split; [|split; [|split]].
  - intros f self s self' s' key Hstep Hkey. destruct f as [now entered|env|env|env];
      cbn [sequencer_step] in Hstep.
    + destruct (current_step s =? 0); [|done]. by eapply login_verify_passkey_grows.
    + destruct (current_step s =? 1); [|done]. unfold login_verify_voice in Hstep.
      destruct (_next_step _) as [p|] eqn:Hp; [|done].
      cbn [mbind option_bind snd] in Hstep. simplify_eq. by eapply next_step_grows.
    + destruct (current_step s =? 2); [|done]. unfold login_verify_face in Hstep.
      destruct (_next_step _) as [p|] eqn:Hp; [|done].
      cbn [mbind option_bind snd] in Hstep. simplify_eq. by eapply next_step_grows.
    + unfold login_verify_fingerprint in Hstep.
      destruct (current_step s =? 3), is_mobile; try done. cbn [andb] in Hstep.
      destruct (local_authentication env) as [|[]]; cbn [mbind option_bind] in Hstep.
      * apply (inj Some) in Hstep. injection Hstep as <- <-. exact Hkey.
      * apply (inj Some) in Hstep. injection Hstep as <- <-. exact Hkey.
      * destruct (_check_complete _) as [p|] eqn:Hp; [|done].
        apply (inj Some) in Hstep. injection Hstep as <- ->.
        apply check_complete_page in Hp. subst s'. by apply set_verified_grows.
  - intros now self1 self2 Hauth. unfold restart. by rewrite Hauth.
  - intros now self self' s' key. unfold restart, main.
    destruct (as_int _) as [n|]; [|done]. cbn [mbind option_bind].
    destruct (negb _); [done|]. unfold page_fuel. cbn [_build_verification_page].
    destruct (_is_locked_out _ _) as [[] a].
    + cbn [update_countdown]. destruct (0 <? _); [done|].
      rewrite build_verification_after_clear. intros H. apply (inj Some) in H.
      injection H as _ <-. split; [done|]. apply fresh_session_unverified.
    + intros H. apply (inj Some) in H.
      injection H as _ <-. split; [done|]. apply fresh_session_unverified.
  - intros now u n self Hpass Hfail Huntil Hleft.
    rewrite (restart_with_passkey now n self Hpass Hfail).
    unfold page_fuel. cbn [_build_verification_page].
    rewrite (is_locked_out_loads_deadline now u n _ _ Huntil).
    unfold timedelta_seconds in Hleft. destruct (Z.ltb_spec now u); [|lia].
    rewrite update_countdown_locked; [done|].
    unfold _get_lockout_remaining. cbn [_lockout_until].
    assert (1 <= (u - now) ÷ 1000000) by (apply Z.quot_le_lower_bound; lia). lia.
Qed.

(** With the four keys present, [_check_complete] opens the vault exactly
    when every factor the platform asks for is marked. *)
Lemma check_complete_spec (s : Session) :
  session_ok s ->
  _check_complete s
  = Some (if is_verified "passkey" s && is_verified "voice" s && is_verified "face" s
             && (negb is_mobile || is_verified "fingerprint" s)
          then VaultPage else VerificationPage s).
Proof.
  intros ([p Hp] & [v Hv] & [f Hf] & [g Hg]). unfold _check_complete, py_and, is_verified.
  rewrite Hp, Hv, Hf, Hg. by destruct is_mobile, p, v, f, g.
Qed.

Lemma is_verified_marked (k : string) (v : gmap string bool) (n : Z) (t e : text) :
  is_verified k (mkSession (<[k := true]> v) n t e) = true.
Proof.
  unfold is_verified. cbn [verified]. by rewrite lookup_insert_eq, bool_decide_eq_true_2.
Qed.

Lemma is_verified_other (k key : string) (v : gmap string bool) (n : Z) (t e : text) :
  k <> key ->
  is_verified key (mkSession (<[k := true]> v) n t e) = bool_decide (v !! key = Some true).
Proof. intros Hne. unfold is_verified. cbn [verified]. by rewrite lookup_insert_ne. Qed.

(** C9. At login the voice step and the face step cannot fail: for every
    machine (microphone or camera present or not, whatever the biometric
    dialog would answer) and every session, the handler plays its fixed
    script, raises no error text and marks its factor verified.  What it
    leaves is fixed by the session alone: the vault page when every other
    factor the platform asks for was verified already, and otherwise the
    verification page one step further, with the factor marked, the other
    marks and the error text as they were.  Read as an outcome, the run is
    [Success]; it is never [Failure] nor [DeviceUnavailable]. *)
Theorem C9_voice_and_face_always_succeed (env : Devices) (s : Session) :
  session_ok s ->
  (exists page,
     login_verify_voice env s = Some (voice_script, page)
     /\ page = (if is_verified "passkey" s && is_verified "face" s
                   && (negb is_mobile || is_verified "fingerprint" s)
                then VaultPage
                else VerificationPage
                       (mkSession (<["voice" := true]> (verified s)) (current_step s + 1)
                          Blank (err_text s)))
     /\ outcome_of "voice" page = Success)
  /\ (exists page,
        login_verify_face env s = Some (face_script, page)
        /\ page = (if is_verified "passkey" s && is_verified "voice" s
                      && (negb is_mobile || is_verified "fingerprint" s)
                   then VaultPage
                   else VerificationPage
                          (mkSession (<["face" := true]> (verified s)) (current_step s + 1)
                             Blank (err_text s)))
        /\ outcome_of "face" page = Success).
Proof.
  intros Hs. split.
  - unfold login_verify_voice, _next_step.
    rewrite check_complete_spec
      by exact (session_ok_set_verified "voice" (set_status (T "verifying") s) Hs).
    unfold set_step, set_status, set_verified.
    cbn [mbind option_bind verified current_step status_text err_text].
    rewrite is_verified_marked, !is_verified_other by done. fold (is_verified "passkey" s) (is_verified "face" s)
      (is_verified "fingerprint" s).
    rewrite andb_true_r. eexists. split; [reflexivity|]. split; [reflexivity|].
    destruct (_ && _ && _); [done|]. unfold outcome_of.
    by rewrite bool_decide_eq_true_2 by (cbn [verified]; by rewrite lookup_insert_eq).
  - unfold login_verify_face, _next_step.
    rewrite check_complete_spec
      by exact (session_ok_set_verified "face" (set_status (T "verifying") s) Hs).
    unfold set_step, set_status, set_verified.
    cbn [mbind option_bind verified current_step status_text err_text].
    rewrite is_verified_marked, !is_verified_other by done. fold (is_verified "passkey" s) (is_verified "voice" s)
      (is_verified "fingerprint" s).
    rewrite andb_true_r. eexists. split; [reflexivity|]. split; [reflexivity|].
    destruct (_ && _ && _); [done|]. unfold outcome_of.
    by rewrite bool_decide_eq_true_2 by (cbn [verified]; by rewrite lookup_insert_eq).
Qed.

(** The accepted entry: the failure counter is reset, the passkey marked,
    and the sequencer moves on. *)
Lemma login_right_passkey (now : Z) (entered : list Z) (self : App) (s : Session) :
  _failed_attempts self < MAX_ATTEMPTS ->
  _verify_passkey self (strip entered) = Some true ->
  session_ok s ->
  login_verify_passkey now entered self s
  = Some (with_auth (put "failed_attempts" (VInt 0)) (set_failed_attempts 0 self),
          if is_verified "voice" s && is_verified "face" s
             && (negb is_mobile || is_verified "fingerprint" s)
          then VaultPage
          else VerificationPage
                 (mkSession (<["passkey" := true]> (verified s)) (current_step s + 1)
                    (status_text s) Blank)).
Proof.
  intros Hn Hv Hs. unfold login_verify_passkey.
  destruct (Z.leb_spec MAX_ATTEMPTS (_failed_attempts self)); [lia|].
  rewrite Hv. unfold _next_step.
  rewrite check_complete_spec by exact (session_ok_set_verified "passkey" s Hs).
  unfold set_step, set_err, set_verified.
  cbn [mbind option_bind verified current_step status_text err_text].
  rewrite is_verified_marked, !is_verified_other by done.
  by fold (is_verified "voice" s) (is_verified "face" s) (is_verified "fingerprint" s).
Qed.

(** C10. Each passkey form strips what was typed before using it.  For a
    trimmed passkey [p] of at least four characters and any whitespace
    around it: the setup form keeps [p] itself for hashing; on a vault whose
    passkey was stored from [p], the login form accepts the padded entry
    (counter reset, passkey marked, next step) and refuses, as one failure,
    any entry whose stripped text hashes differently; the change-passkey form
    accepts the padded current passkey and stores the hash of the trimmed new
    one; the recovery reset stores the hash of [p].  In all four forms two
    entries with the same stripped text are interchangeable. *)
Theorem C10_passkey_entries_are_stripped (w1 w2 w3 w4 w5 w6 p : list Z) :
  Forall (fun c => isspace c = true) w1 -> Forall (fun c => isspace c = true) w2 ->
  Forall (fun c => isspace c = true) w3 -> Forall (fun c => isspace c = true) w4 ->
  Forall (fun c => isspace c = true) w5 -> Forall (fun c => isspace c = true) w6 ->
  strip p = p -> (4 <= length p)%nat ->
  (forall self,
     setup_step1_next (w1 ++ p ++ w2) (w3 ++ p ++ w4) self
     = (set_setup_data (<["passkey" := VStr p]> (_setup_data self)) self,
        SetupStep 2, Blank))
  /\ (forall now salt self self' s,
        _save_passkey salt p self = Some self' ->
        _failed_attempts self' < MAX_ATTEMPTS ->
        session_ok s ->
        login_verify_passkey now (w1 ++ p ++ w2) self' s
        = Some (with_auth (put "failed_attempts" (VInt 0)) (set_failed_attempts 0 self'),
                if is_verified "voice" s && is_verified "face" s
                   && (negb is_mobile || is_verified "fingerprint" s)
                then VaultPage
                else VerificationPage
                       (mkSession (<["passkey" := true]> (verified s))
                          (current_step s + 1) (status_text s) Blank)))
  /\ (forall now salt other h h' self self' s,
        _save_passkey salt p self = Some self' ->
        _hash_passkey p salt = Some h ->
        _hash_passkey (strip other) salt = Some h' ->
        h' <> h ->
        _failed_attempts self' + 1 < MAX_ATTEMPTS ->
        login_verify_passkey now (w1 ++ other ++ w2) self' s
        = Some (with_auth (put "failed_attempts" (VInt (_failed_attempts self' + 1)))
                  (set_failed_attempts (_failed_attempts self' + 1) self'),
                VerificationPage
                  (set_err (WrongPass (MAX_ATTEMPTS - (_failed_attempts self' + 1))) s)))
  /\ (forall salt salt' q h self self',
        _save_passkey salt p self = Some self' ->
        strip q = q -> (4 <= length q)%nat ->
        _hash_passkey q salt' = Some h ->
        exists self'',
          change_passkey_save salt' (w1 ++ p ++ w2) (w3 ++ q ++ w4) (w5 ++ q ++ w6) self'
          = Some (self'', T "passkey_changed")
          /\ _save_passkey salt' q self' = Some self''
          /\ get "pass_hash" VNone (auth self'') = VStr h
          /\ _verify_passkey self'' q = Some true)
  /\ (forall now salt h self,
        _hash_passkey p salt = Some h ->
        exists self',
          reset_passkey_save now salt (w1 ++ p ++ w2) (w3 ++ p ++ w4) self
          = Some (self', T "passkey_changed", Some (VerificationPage fresh_session))
          /\ get "salt" VNone (auth self') = VStr salt
          /\ get "pass_hash" VNone (auth self') = VStr h
          /\ _verify_passkey self' p = Some true)
  /\ (forall a a' b b' self,
        strip a = strip a' -> strip b = strip b' ->
        setup_step1_next a b self = setup_step1_next a' b' self)
  /\ (forall now a a' self s,
        strip a = strip a' ->
        login_verify_passkey now a self s = login_verify_passkey now a' self s)
  /\ (forall salt a a' b b' c c' self,
        strip a = strip a' -> strip b = strip b' -> strip c = strip c' ->
        change_passkey_save salt a b c self = change_passkey_save salt a' b' c' self)
  /\ (forall now salt a a' b b' self,
        strip a = strip a' -> strip b = strip b' ->
        reset_passkey_save now salt a b self = reset_passkey_save now salt a' b' self).
Proof.
  intros H1 H2 H3 H4 H5 H6 Hp Hlen.
  assert (Hpad : forall wa wb x,
            Forall (fun c => isspace c = true) wa -> Forall (fun c => isspace c = true) wb ->
            strip x = x -> strip (wa ++ x ++ wb) = x).
  { intros wa wb x Ha Hb Hx. by rewrite strip_padded, Hx. }
  split; [|split; [|split; [|split; [|split; [|split; [|split; [|split]]]]]]].
  - intros self. unfold setup_step1_next. rewrite !Hpad by done.
    destruct (Z.ltb_spec (Z.of_nat (length p)) 4); [lia|].
    by rewrite bool_decide_eq_true_2.
  - intros now salt self self' s Hsave Hn Hs.
    destruct (save_passkey_hash _ _ _ _ Hsave) as (h & Hh & _).
    apply login_right_passkey; [done| |done].
    rewrite Hpad by done.
    rewrite (verify_after_save _ _ _ _ _ _ _ Hsave Hh Hh). by rewrite bool_decide_eq_true_2.
  - intros now salt other h h' self self' s Hsave Hh Hh' Hne Hn.
    apply login_wrong_passkey; [done|].
    rewrite strip_padded by done.
    rewrite (verify_after_save _ _ _ _ _ _ _ Hsave Hh Hh'). by rewrite bool_decide_eq_false_2.
  - intros salt salt' q h self self' Hsave Hq Hlenq Hh.
    destruct (save_passkey_hash _ _ _ _ Hsave) as (h0 & Hh0 & _).
    unfold change_passkey_save. rewrite !Hpad by done.
    rewrite (verify_after_save _ _ _ _ _ _ _ Hsave Hh0 Hh0).
    rewrite bool_decide_eq_true_2 by done. cbn [mbind option_bind negb].
    destruct (Z.ltb_spec (Z.of_nat (length q)) 4); [lia|].
    rewrite bool_decide_eq_true_2 by done. cbn [negb].
    assert (Hsave' : _save_passkey salt' q self'
                     = Some (with_auth (put "pass_hash" (VStr h))
                               (with_auth (put "salt" (VStr salt')) self')))
      by (unfold _save_passkey; by rewrite Hh).
    rewrite Hsave'. eexists. split; [reflexivity|]. split; [done|].
    cbn [auth with_auth]. repeat (rewrite get_put || rewrite get_put_ne by done).
    split; [done|].
    rewrite (verify_after_save _ _ _ _ _ _ _ Hsave' Hh Hh). by rewrite bool_decide_eq_true_2.
  - intros now salt h self Hh. unfold reset_passkey_save. rewrite !Hpad by done.
    destruct (Z.ltb_spec (Z.of_nat (length p)) 4); [lia|].
    rewrite bool_decide_eq_true_2 by done. cbn [negb].
    assert (Hsave : _save_passkey salt p self
                    = Some (with_auth (put "pass_hash" (VStr h))
                              (with_auth (put "salt" (VStr salt)) self)))
      by (unfold _save_passkey; by rewrite Hh).
    rewrite Hsave. cbn [mbind option_bind].
    set (self1 := with_auth _ (with_auth _ self)) in *.
    unfold page_fuel. rewrite build_verification_after_clear. cbn [mbind option_bind].
    exists (_clear_lockout self1). split; [done|].
    assert (Hs : auth (_clear_lockout self1) !! "salt" = auth self1 !! "salt"
                 /\ auth (_clear_lockout self1) !! "pass_hash" = auth self1 !! "pass_hash").
    { unfold _clear_lockout, put.
      cbn [auth with_auth set_lockout_until set_lockout_count].
      by rewrite !lookup_insert_ne. }
    destruct Hs as [Hs Hph].
    split; [|split].
    + unfold get. rewrite Hs. unfold self1, put. cbn [auth with_auth].
      rewrite lookup_insert_ne by done. by rewrite lookup_insert_eq.
    + unfold get. rewrite Hph. unfold self1, put. cbn [auth with_auth].
      by rewrite lookup_insert_eq.
    + rewrite (verify_passkey_frame self1 (_clear_lockout self1)) by done.
      rewrite (verify_after_save _ _ _ _ _ _ _ Hsave Hh Hh). by rewrite bool_decide_eq_true_2.
  - intros a a' b b' self Ha Hb. unfold setup_step1_next. by rewrite Ha, Hb.
  - intros now a a' self s Ha. unfold login_verify_passkey. by rewrite Ha.
  - intros salt a a' b b' c c' self Ha Hb Hc. unfold change_passkey_save.
    by rewrite Ha, Hb, Hc.
  - intros now salt a a' b b' self Ha Hb. unfold reset_passkey_save. by rewrite Ha, Hb.
Qed.

(** *** Lockout episodes *)

Lemma lockout_time_values :
  lockout_time 1 = 60 /\ lockout_time 2 = 120 /\ lockout_time 3 = 240
  /\ lockout_time 6 = 1920 /\ lockout_time 7 = 3600 /\ lockout_time 8 = 3600.
Proof. by vm_compute. Qed.

(** Every lockout [_apply_lockout] starts lasts between a minute and an
    hour, whatever count the shelf holds. *)
Lemma apply_lockout_capped (now c : Z) (self : App) :
  get "lockout_count" (VInt 0) (auth self) = VInt c -> 0 <= c ->
  exists self' u,
    _apply_lockout now self = Some self' /\ _lockout_until self' = Some u
    /\ now + timedelta_seconds 60 <= u <= now + timedelta_seconds 3600
    /\ (forall t, now <= t -> _get_lockout_remaining t self' <= 3600).
Proof.
  intros Hc Hpos. destruct (apply_lockout_spec now c self Hc Hpos) as (self' & Ha & Hu & _).
  pose proof (lockout_time_bounds (c + 1) ltac:(lia)) as Hb.
  exists self', (now + timedelta_seconds (lockout_time (c + 1))).
  split; [done|]. split; [done|]. unfold timedelta_seconds. split; [lia|].
  intros t Ht. rewrite (remaining_spec _ _ _ Hu). unfold timedelta_seconds.
  destruct (Z.le_gt_cases (now + lockout_time (c + 1) * 1000000 - t) 0).
  - assert ((now + lockout_time (c + 1) * 1000000 - t) ÷ 1000000 <= 0)
      by (apply Z.quot_le_upper_bound; lia). lia.
  - assert ((now + lockout_time (c + 1) * 1000000 - t) ÷ 1000000 <= 3600)
      by (apply Z.quot_le_upper_bound; lia). lia.
Qed.

(** What [_clear_lockout] resets, and what it leaves: the failure counter
    of the object keeps its value (only the shelf's copy is zeroed), while
    [_apply_lockout] zeroes both. *)
Lemma clear_lockout_spec (self : App) :
  _lockout_until (_clear_lockout self) = None
  /\ _lockout_count (_clear_lockout self) = 0
  /\ get "lockout_until" VNone (auth (_clear_lockout self)) = VNone
  /\ get "lockout_count" (VInt 0) (auth (_clear_lockout self)) = VInt 0
  /\ get "failed_attempts" VNone (auth (_clear_lockout self)) = VInt 0
  /\ _failed_attempts (_clear_lockout self) = _failed_attempts self
  /\ auth (_clear_lockout self) !! "salt" = auth self !! "salt"
  /\ auth (_clear_lockout self) !! "pass_hash" = auth self !! "pass_hash".
Proof.
  unfold _clear_lockout. cbn [_lockout_until _lockout_count _failed_attempts auth
    with_auth set_lockout_until set_lockout_count].
  repeat (rewrite get_put || rewrite get_put_ne by done).
  unfold put. by rewrite !lookup_insert_ne.
Qed.

(** When the countdown sees the window over, it clears the lockout, count
    included, so that the lockout after it is the base window again,
    however many lockouts came before. *)
Lemma lockout_after_countdown_expiry
    (now0 now1 now2 now3 : Z) (e1 e2 e3 : list Z) (self : App) :
  _failed_attempts self = 0 ->
  _get_lockout_remaining now0 self <= 0 ->
  _verify_passkey self (strip e1) = Some false ->
  _verify_passkey self (strip e2) = Some false ->
  _verify_passkey self (strip e3) = Some false ->
  exists self0 self3,
    update_countdown page_fuel now0 self = Some (self0, VerificationPage fresh_session)
    /\ run (self0, VerificationPage fresh_session)
         [Verify (EnterPasskey now1 e1); Verify (EnterPasskey now2 e2);
          Verify (EnterPasskey now3 e3)]
       = Some (self3, LockoutPage)
    /\ _lockout_until self3 = Some (now3 + timedelta_seconds 60).
Proof.
  intros Hf Hrem Hv1 Hv2 Hv3.
  destruct (clear_lockout_spec self) as (_ & _ & _ & Hc & _ & Hf0 & Hs & Hp).
  destruct (three_wrong_passkeys now1 now2 now3 0 e1 e2 e3 (_clear_lockout self) fresh_session)
    as (self1 & self2 & self3 & H1 & _ & H2 & _ & H3 & Hu & _);
    [congruence | done | done | | | |].
  1-3: by rewrite (verify_passkey_frame self (_clear_lockout self)).
  exists (_clear_lockout self), self3. split; [by apply update_countdown_expired|].
  split; [|done]. cbn [run step sequencer_step snd fst].
  change (current_step fresh_session =? 0) with true. cbn match. rewrite H1.
  cbn [mbind option_bind snd fst run step sequencer_step].
  change (current_step (set_err (WrongPass 2) fresh_session) =? 0) with true.
  cbn match. rewrite H2. cbn [mbind option_bind snd fst run step sequencer_step].
  change (current_step (set_err (WrongPass 1) fresh_session) =? 0) with true.
  cbn match. by rewrite H3.
Qed.

(** Started again after the deadline has passed, the application shows the
    verification page and leaves the shelf, count included, as it was. *)
Lemma restart_after_deadline (now u n : Z) (self : App) :
  _has_passkey self = true ->
  get "failed_attempts" (VInt 0) (auth self) = VInt n ->
  get "lockout_until" VNone (auth self) = VIso u ->
  u <= now ->
  restart now self
  = Some (mkApp (auth self) n (Some u) 0 ∅, VerificationPage fresh_session).
Proof.
  intros Hpass Hfail Huntil Hpast.
  rewrite (restart_with_passkey now n self Hpass Hfail).
  unfold page_fuel. cbn [_build_verification_page].
  rewrite (is_locked_out_loads_deadline now u n _ _ Huntil).
  by destruct (Z.ltb_spec now u); [lia|].
Qed.

(** *** Recovery answers *)

(** [_verify_secret_answer] sees a candidate only through its stripped,
    lower-cased form. *)
Lemma verify_secret_answer_normal (self : App) (c1 c2 : list Z) :
  str_lower (strip c1) = str_lower (strip c2) ->
  _verify_secret_answer self c1 = _verify_secret_answer self c2.
Proof. unfold _verify_secret_answer. by intros ->. Qed.

Lemma verify_saved_answer (answer_salt question stored : list Z) (self self' : App) :
  _save_secret_question answer_salt question stored self = Some self' ->
  _verify_secret_answer self' stored = Some true.
Proof.
  unfold _save_secret_question, _verify_secret_answer. intros Hsave.
  destruct (_hash_passkey (str_lower (strip stored)) answer_salt) as [h|] eqn:Hh; [|done].
  cbn [mbind option_bind] in Hsave. apply (inj Some) in Hsave. subst self'.
  cbn [auth with_auth]. repeat (rewrite get_put || rewrite get_put_ne by done).
  cbn [as_str mbind option_bind]. rewrite Hh. cbn [mbind option_bind].
  apply compare_digest_refl, hexdigits_isascii.
  by destruct (hash_passkey_shape _ _ _ Hh).
Qed.

(** *** More on the lockout policy *)

Lemma lockout_time_closed_form (c : Z) :
  0 <= c -> lockout_time (c + 1) = if c <=? 5 then 60 * 2 ^ c else 3600.
Proof.
  intros Hc. unfold lockout_time, LOCKOUT_BASE_TIME, LOCKOUT_MULTIPLIER, MAX_LOCKOUT_TIME.
  replace (c + 1 - 1) with c by lia.
  destruct (Z.leb_spec c 5).
  - assert (2 ^ c <= 2 ^ 5) by (apply Z.pow_le_mono_r; lia).
    change (2 ^ 5) with 32 in *. lia.
  - assert (2 ^ 6 <= 2 ^ c) by (apply Z.pow_le_mono_r; lia).
    change (2 ^ 6) with 64 in *. lia.
Qed.

(** X1. With a count [c] on the shelf (an absent count reads 0),
    [_apply_lockout] sets the deadline [60 * 2 ^ c] seconds ahead while
    [c] is at most 5 and 3600 seconds ahead from then on, writes the deadline
    and the count [c + 1] to the shelf, and zeroes the failure counter in
    memory and on the shelf. *)
Theorem X1_apply_lockout_doubles_then_caps (now c : Z) (self : App) :
  get "lockout_count" (VInt 0) (auth self) = VInt c -> 0 <= c ->
  exists self',
    _apply_lockout now self = Some self'
    /\ _lockout_until self'
       = Some (now + timedelta_seconds (if c <=? 5 then 60 * 2 ^ c else 3600))
    /\ get "lockout_until" VNone (auth self')
       = VIso (now + timedelta_seconds (if c <=? 5 then 60 * 2 ^ c else 3600))
    /\ get "lockout_count" VNone (auth self') = VInt (c + 1)
    /\ _failed_attempts self' = 0
    /\ get "failed_attempts" VNone (auth self') = VInt 0.
Proof.
  intros Hc Hpos.
  destruct (apply_lockout_spec now c self Hc Hpos)
    as (self' & Ha & Hu & _ & Hf & Hlc & Hlu & Hfa & _).
  rewrite (lockout_time_closed_form c Hpos) in Hu, Hlu.
  by exists self'.
Qed.

Lemma has_passkey_frame (self self' : App) :
  auth self' !! "pass_hash" = auth self !! "pass_hash" ->
  _has_passkey self' = _has_passkey self.
Proof. unfold _has_passkey, get. by intros ->. Qed.

Lemma restart_before_deadline (now u n : Z) (self : App) :
  _has_passkey self = true ->
  get "failed_attempts" (VInt 0) (auth self) = VInt n ->
  get "lockout_until" VNone (auth self) = VIso u ->
  now + timedelta_seconds 1 <= u ->
  restart now self = Some (mkApp (auth self) n (Some u) 0 ∅, LockoutPage).
Proof.
  intros Hpass Hfail Huntil Hleft.
  rewrite (restart_with_passkey now n self Hpass Hfail).
  unfold page_fuel. cbn [_build_verification_page].
  rewrite (is_locked_out_loads_deadline now u n _ _ Huntil).
  unfold timedelta_seconds in Hleft. destruct (Z.ltb_spec now u); [|lia].
  rewrite update_countdown_locked; [done|].
  unfold _get_lockout_remaining. cbn [_lockout_until].
  assert (1 <= (u - now) ÷ 1000000) by (apply Z.quot_le_lower_bound; lia). lia.
Qed.

Lemma get_default_irrelevant (key : string) (d d' v : value) (box : gmap string value) :
  get key d box = v -> v <> d -> get key d' box = v.
Proof.
  unfold get. destruct (box !! key) as [w|]; cbn; [done|]. by intros -> ?.
Qed.

(** X2. Closing and opening the application does not end a lockout: after
    the wrong passkey that locks a vault, a restart up to a second before
    the deadline shows the lockout page again, with the same deadline read
    back from the shelf; a restart at or after the deadline shows the
    passkey form, and the shelf still holds the incremented lockout count. *)
Theorem X2_lockout_survives_restart
    (now t c : Z) (entered : list Z) (self : App) (s : Session) :
  _has_passkey self = true ->
  _failed_attempts self < MAX_ATTEMPTS <= _failed_attempts self + 1 ->
  _verify_passkey self (strip entered) = Some false ->
  get "lockout_count" (VInt 0) (auth self) = VInt c -> 0 <= c ->
  exists self' u,
    login_verify_passkey now entered self s = Some (self', LockoutPage)
    /\ _lockout_until self' = Some u
    /\ now + timedelta_seconds 60 <= u <= now + timedelta_seconds 3600
    /\ (t + timedelta_seconds 1 <= u ->
        restart t self' = Some (mkApp (auth self') 0 (Some u) 0 ∅, LockoutPage))
    /\ (u <= t ->
        restart t self'
        = Some (mkApp (auth self') 0 (Some u) 0 ∅, VerificationPage fresh_session))
    /\ get "lockout_count" VNone (auth self') = VInt (c + 1).
Proof.
  intros Hpass Hn Hv Hc Hpos.
  destruct (login_last_wrong_passkey now c entered self s Hn Hv Hc Hpos)
    as (self' & Hrun & Hu & _ & Hlc & Hlu & Hfa & _ & Hp).
  pose proof (lockout_time_bounds (c + 1) ltac:(lia)) as Hb.
  assert (Hpass' : _has_passkey self' = true) by (by rewrite (has_passkey_frame self self' Hp)).
  assert (Hfa' : get "failed_attempts" (VInt 0) (auth self') = VInt 0)
    by (by apply (get_default_irrelevant _ VNone)).
  exists self', (now + timedelta_seconds (lockout_time (c + 1))).
  split; [done|]. split; [done|]. split; [unfold timedelta_seconds; lia|].
  split; [|split; [|done]].
  - intros Ht. by apply restart_before_deadline.
  - intros Ht. by apply restart_after_deadline.
Qed.

(** X3. [_get_lockout_remaining] truncates to whole seconds while
    [_is_locked_out] compares timestamps: time remaining implies locked,
    but in the last second of a lockout the vault is locked with 0 seconds
    remaining, and a countdown tick at such a moment already clears the
    lockout and shows the passkey form. *)
Theorem X3_countdown_releases_within_the_last_second (now u : Z) (self : App) :
  _lockout_until self = Some u ->
  (0 < _get_lockout_remaining now self -> (_is_locked_out now self).1 = true)
  /\ ((_is_locked_out now self).1 = true /\ _get_lockout_remaining now self = 0
      <-> 0 < u - now < 1000000)
  /\ (0 < u - now < 1000000 ->
      update_countdown page_fuel now self
      = Some (_clear_lockout self, VerificationPage fresh_session)).
Proof.
  intros Hu. rewrite (is_locked_out_spec _ _ _ Hu), (remaining_spec _ _ _ Hu).
  cbn [fst].
  assert (Hq : 0 < u - now < 1000000 -> (u - now) ÷ 1000000 = 0)
    by (intros ?; apply Z.quot_small; lia).
  assert (Hq' : 1000000 <= u - now -> 1 <= (u - now) ÷ 1000000)
    by (intros ?; apply Z.quot_le_lower_bound; lia).
  assert (Hq'' : u - now <= 0 -> (u - now) ÷ 1000000 <= 0)
    by (intros ?; apply Z.quot_le_upper_bound; lia).
  split; [|split].
  - intros Hr. destruct (Z.ltb_spec now u); [done|]. specialize (Hq'' ltac:(lia)). lia.
  - split.
    + intros [Hl Hr]. apply Z.ltb_lt in Hl.
      destruct (Z.lt_ge_cases (u - now) 1000000); [lia|]. specialize (Hq' ltac:(lia)). lia.
    + intros Hlast. split; [apply Z.ltb_lt; lia|]. rewrite (Hq Hlast). done.
  - intros Hlast. apply update_countdown_expired.
    rewrite (remaining_spec _ _ _ Hu), (Hq Hlast). done.
Qed.

(** X4. With [MAX_ATTEMPTS] or more failures already counted (a count read
    back from the shelf by [main]), the passkey handler locks the vault
    without looking at the entry: the right passkey is refused like any
    other. *)
Theorem X4_exhausted_counter_locks_unseen
    (now c : Z) (entered : list Z) (self : App) (s : Session) :
  MAX_ATTEMPTS <= _failed_attempts self ->
  get "lockout_count" (VInt 0) (auth self) = VInt c -> 0 <= c ->
  exists self',
    _apply_lockout now self = Some self'
    /\ login_verify_passkey now entered self s = Some (self', LockoutPage)
    /\ _failed_attempts self' = 0.
Proof.
  intros Hn Hc Hpos.
  destruct (apply_lockout_spec now c self Hc Hpos) as (self' & Ha & _ & _ & Hf & _).
  exists self'. split; [done|]. split; [|done].
  unfold login_verify_passkey. destruct (Z.leb_spec MAX_ATTEMPTS (_failed_attempts self)); [|lia].
  rewrite Ha. cbn [mbind option_bind]. exact (lockout_page_after_apply now self self' Ha).
Qed.

(** *** More on the sequencer *)

Lemma apply_lockout_frame (now : Z) (self self' : App) (key : string) :
  _apply_lockout now self = Some self' ->
  key <> "lockout_count" -> key <> "lockout_until" -> key <> "failed_attempts" ->
  auth self' !! key = auth self !! key.
Proof.
  unfold _apply_lockout. intros H H1 H2 H3.
  destruct (as_int _) as [c|]; [|done]. cbn [mbind option_bind] in H.
  destruct (_ <? 0); [done|]. apply (inj Some) in H. subst self'.
  cbn [auth with_auth set_failed_attempts set_lockout_until set_lockout_count].
  unfold put. by rewrite !lookup_insert_ne.
Qed.

Lemma clear_lockout_frame (self : App) (key : string) :
  key <> "lockout_count" -> key <> "lockout_until" -> key <> "failed_attempts" ->
  auth (_clear_lockout self) !! key = auth self !! key.
Proof.
  intros H1 H2 H3. unfold _clear_lockout.
  cbn [auth with_auth set_lockout_until set_lockout_count].
  unfold put. by rewrite !lookup_insert_ne.
Qed.

Lemma is_locked_out_auth (now : Z) (self : App) :
  auth (_is_locked_out now self).2 = auth self.
Proof.
  unfold _is_locked_out. destruct (_lockout_until self) as [u|] eqn:Hu.
  - by rewrite Hu.
  - destruct (get "lockout_until" VNone (auth self)); cbn; try by rewrite Hu.
    done.
Qed.

(** The page [_build_verification_page] builds is the passkey form of a new
    session or the lockout page, over an object whose shelf is the old one
    or the old one with the lockout cleared. *)
Lemma build_verification_cases (k : nat) (now : Z) (self self' : App) (page : Page) :
  _build_verification_page (S (S (S k))) now self = Some (self', page) ->
  (page = VerificationPage fresh_session \/ page = LockoutPage)
  /\ (auth self' = auth self \/ auth self' = auth (_clear_lockout (_is_locked_out now self).2)).
Proof.
  cbn [_build_verification_page]. destruct (_is_locked_out now self) as [locked a] eqn:Hl.
  assert (Ha : auth a = auth self)
    by (rewrite <- (is_locked_out_auth now self); by rewrite Hl).
  cbn [snd]. destruct locked.
  - cbn [update_countdown]. destruct (0 <? _).
    + intros H. apply (inj Some) in H. injection H as <- <-. auto.
    + rewrite build_verification_after_clear. intros H. apply (inj Some) in H.
      injection H as <- <-. auto.
  - intros H. apply (inj Some) in H. injection H as <- <-. auto.
Qed.

Lemma check_complete_cases (s : Session) (page : Page) :
  _check_complete s = Some page ->
  (page = VaultPage /\ verified s !! "passkey" = Some true)
  \/ page = VerificationPage s.
Proof.
  unfold _check_complete, py_and. intros H.
  destruct (verified s !! "passkey") as [[]|]; cbn [mbind option_bind] in H; try done.
  - destruct (verified s !! "voice") as [[]|]; cbn [mbind option_bind] in H; try done.
    + destruct (verified s !! "face") as [[]|]; cbn [mbind option_bind] in H; try done.
      * destruct is_mobile; cbn [mbind option_bind] in H.
        -- destruct (verified s !! "fingerprint") as [[]|];
             cbn [mbind option_bind] in H; try done;
             apply (inj Some) in H; subst page; auto.
        -- apply (inj Some) in H. subst page. auto.
      * destruct is_mobile; cbn [mbind option_bind] in H;
          apply (inj Some) in H; subst page; auto.
    + destruct is_mobile; cbn [mbind option_bind] in H;
        apply (inj Some) in H; subst page; auto.
  - destruct is_mobile; cbn [mbind option_bind] in H;
      apply (inj Some) in H; subst page; auto.
Qed.

Lemma verify_secret_answer_frame (self self' : App) (answer : list Z) :
  auth self' !! "secret_answer_hash" = auth self !! "secret_answer_hash" ->
  auth self' !! "secret_answer_salt" = auth self !! "secret_answer_salt" ->
  _verify_secret_answer self' answer = _verify_secret_answer self answer.
Proof. unfold _verify_secret_answer, get. by intros -> ->. Qed.

Lemma sealed_login_verify_passkey (self0 : App) (now : Z) (entered : list Z)
    (self self' : App) (s : Session) (page : Page) :
  sealed self0 (self, VerificationPage s) ->
  _verify_passkey self0 (strip entered) = Some false ->
  login_verify_passkey now entered self s = Some (self', page) ->
  sealed self0 (self', page).
Proof.
  intros [Hauth Hs] Hv0 Hrun. cbn [fst snd] in Hauth, Hs.
  assert (Hv : _verify_passkey self (strip entered) = Some false).
  { rewrite <- Hv0. apply verify_passkey_frame; by apply Hauth. }
  unfold login_verify_passkey in Hrun. rewrite Hv in Hrun.
  destruct (MAX_ATTEMPTS <=? _failed_attempts self).
  - destruct (_apply_lockout now self) as [a|] eqn:Ha; [|done].
    cbn [mbind option_bind] in Hrun.
    rewrite (lockout_page_after_apply _ _ _ Ha) in Hrun.
    apply (inj Some) in Hrun. injection Hrun as <- <-. split; [|done].
    intros key H1 H2 H3. cbn [fst]. rewrite (apply_lockout_frame _ _ _ key Ha) by done.
    by apply Hauth.
  - cbn [mbind option_bind] in Hrun.
    set (self1 := with_auth _ _) in Hrun.
    assert (Hauth1 : forall key, key <> "lockout_count" -> key <> "lockout_until" ->
                       key <> "failed_attempts" -> auth self1 !! key = auth self0 !! key).
    { intros key H1 H2 H3. unfold self1, put. cbn [auth with_auth set_failed_attempts].
      rewrite lookup_insert_ne by done. by apply Hauth. }
    destruct (_ <=? 0).
    + destruct (_apply_lockout now self1) as [a|] eqn:Ha; [|done].
      cbn [mbind option_bind] in Hrun.
      rewrite (lockout_page_after_apply _ _ _ Ha) in Hrun.
      apply (inj Some) in Hrun. injection Hrun as <- <-. split; [|done].
      intros key H1 H2 H3. cbn [fst]. rewrite (apply_lockout_frame _ _ _ key Ha) by done.
      by apply Hauth1.
    + apply (inj Some) in Hrun. injection Hrun as <- <-. by split.
Qed.

Lemma sealed_next_step (self0 self : App) (k : string) (t : text) (s : Session)
    (page : Page) :
  sealed self0 (self, VerificationPage s) -> k <> "passkey" ->
  _next_step (set_status t (set_verified k s)) = Some page ->
  sealed self0 (self, page).
Proof.
  intros [Hauth Hs] Hk Hp. cbn [fst snd] in Hauth, Hs. unfold _next_step in Hp.
  assert (Hpk : verified (set_step (current_step (set_status t (set_verified k s)) + 1)
                   (set_status t (set_verified k s))) !! "passkey"
                = verified s !! "passkey")
    by (cbn [verified set_step set_status set_verified]; by rewrite lookup_insert_ne).
  destruct (check_complete_cases _ _ Hp) as [[_ Hv] | ->].
  - rewrite Hpk in Hv. done.
  - split; [done|]. cbn [snd]. by rewrite Hpk.
Qed.

Lemma sealed_step (self0 : App) (st st' : App * Page) (ev : Event) :
  sealed self0 st -> powerless self0 ev -> step st ev = Some st' -> sealed self0 st'.
Proof.
  destruct st as [self page]. intros Hsealed Hev Hstep.
  pose proof Hsealed as [Hauth Hpage]. cbn [fst snd] in Hauth, Hpage.
  destruct ev as [f|now|now|now answer salt new confirm]; cbn [step fst snd] in Hstep.
  - destruct page as [n|s| |]; try done. destruct f as [now entered|env|env|env];
      cbn [sequencer_step] in Hstep.
    + destruct (current_step s =? 0); [|done].
      destruct st' as [self' page'].
      exact (sealed_login_verify_passkey self0 now entered self self' s page'
               Hsealed Hev Hstep).
    + destruct (current_step s =? 1); [|done]. unfold login_verify_voice in Hstep.
      destruct (_next_step _) as [p|] eqn:Hp; [|done].
      cbn [mbind option_bind snd] in Hstep. apply (inj Some) in Hstep. subst st'.
      eapply (sealed_next_step self0 self "voice"); [|done|exact Hp].
      split; [exact Hauth | exact Hpage].
    + destruct (current_step s =? 2); [|done]. unfold login_verify_face in Hstep.
      destruct (_next_step _) as [p|] eqn:Hp; [|done].
      cbn [mbind option_bind snd] in Hstep. apply (inj Some) in Hstep. subst st'.
      eapply (sealed_next_step self0 self "face"); [|done|exact Hp].
      split; [exact Hauth | exact Hpage].
    + unfold login_verify_fingerprint in Hstep.
      destruct (current_step s =? 3), is_mobile; try done. cbn [andb] in Hstep.
      destruct (local_authentication env) as [|[]]; cbn [mbind option_bind] in Hstep.
      * apply (inj Some) in Hstep. subst st'. by split.
      * apply (inj Some) in Hstep. subst st'. by split.
      * destruct (_check_complete _) as [p|] eqn:Hp; [|done].
        cbn [mbind option_bind] in Hstep. apply (inj Some) in Hstep. subst st'.
        assert (Hpk : verified (set_status (T "fingerprint_success")
                                  (set_verified "fingerprint" s)) !! "passkey"
                      = verified s !! "passkey")
          by (cbn [verified set_status set_verified]; by rewrite lookup_insert_ne).
        destruct (check_complete_cases _ _ Hp) as [[_ Hv] | ->].
        -- rewrite Hpk in Hv. done.
        -- split; [done|]. cbn [snd]. by rewrite Hpk.
  - destruct page as [n|s| |]; try done. unfold page_fuel in Hstep.
    cbn [update_countdown] in Hstep. destruct (0 <? _).
    + apply (inj Some) in Hstep. by subst st'.
    + rewrite build_verification_after_clear in Hstep. apply (inj Some) in Hstep.
      subst st'. split; [|apply fresh_session_unverified].
      intros key H1 H2 H3. cbn [fst]. rewrite clear_lockout_frame by done. by apply Hauth.
  - unfold restart, main in Hstep. destruct (as_int _) as [n|]; [|done].
    cbn [mbind option_bind] in Hstep. destruct (negb _).
    + apply (inj Some) in Hstep. by subst st'.
    + destruct st' as [self' page']. unfold page_fuel in Hstep.
      destruct (build_verification_cases _ _ _ _ _ Hstep) as [Hp Ha]. split.
      * intros key H1 H2 H3. cbn [fst]. destruct Ha as [-> | ->].
        -- by apply Hauth.
        -- rewrite clear_lockout_frame by done. rewrite is_locked_out_auth.
           by apply Hauth.
      * cbn [snd]. destruct Hp as [-> | ->]; [apply fresh_session_unverified | done].
  - cbn [powerless] in Hev.
    assert (Hv : forgot_passkey_verify self answer = Some false).
    { unfold forgot_passkey_verify. rewrite <- Hev.
      apply verify_secret_answer_frame; by apply Hauth. }
    destruct page as [n|s| |]; try done; rewrite Hv in Hstep;
      cbn [mbind option_bind] in Hstep; apply (inj Some) in Hstep; by subst st'.
Qed.

(** X5. The vault page is out of reach without the passkey: from a
    session in which the passkey is not verified, no run of passkey entries
    that do not verify, wrong recovery answers, voice, face and fingerprint
    steps, countdown ticks and restarts ends on the vault page, on desktop or
    on mobile. *)
Theorem X5_no_vault_without_the_passkey
    (self self' : App) (s : Session) (page' : Page) (evs : list Event) :
  verified s !! "passkey" <> Some true ->
  Forall (powerless self) evs ->
  run (self, VerificationPage s) evs = Some (self', page') ->
  page' <> VaultPage.
Proof.
  intros Hs Hevs Hrun.
  assert (Hsealed : sealed self (self, VerificationPage s)) by (by split).
  assert (Hgen : forall st st', sealed self st -> run st evs = Some st' -> sealed self st').
  { clear Hrun Hsealed. induction Hevs as [|ev evs Hev _ IH]; intros st st' Hst Hrun.
    - cbn [run] in Hrun. apply (inj Some) in Hrun. by subst st'.
    - cbn [run] in Hrun. destruct (step st ev) as [st1|] eqn:Hstep; [|done].
      cbn [mbind option_bind] in Hrun. eapply IH; [|exact Hrun].
      by eapply sealed_step. }
  destruct (Hgen _ _ Hsealed Hrun) as [_ Hpage]. cbn [snd] in Hpage.
  by intros ->.
Qed.

Lemma login_right_passkey_fresh (now : Z) (entered : list Z) (self : App) :
  _failed_attempts self < MAX_ATTEMPTS ->
  _verify_passkey self (strip entered) = Some true ->
  login_verify_passkey now entered self fresh_session
  = Some (with_auth (put "failed_attempts" (VInt 0)) (set_failed_attempts 0 self),
          VerificationPage (set_step 1 (set_verified "passkey" fresh_session))).
Proof.
  intros Hn Hv. unfold login_verify_passkey.
  destruct (Z.leb_spec MAX_ATTEMPTS (_failed_attempts self)); [lia|].
  rewrite Hv. cbn [mbind option_bind].
  replace (_next_step (set_err Blank (set_verified "passkey" fresh_session)))
    with (Some (VerificationPage (set_step 1 (set_verified "passkey" fresh_session)))); [done|].
  unfold _next_step, _check_complete. destruct is_mobile; vm_compute; reflexivity.
Qed.

(** X6. The three factors in order open the vault on a desktop: from a
    new session, the right passkey, then the voice step, then the face step
    end on the vault page, with the failure counter reset; each step before
    the last leaves the verification page one step further.  On mobile the
    same three steps stop at the fingerprint step, where a successful
    platform dialog opens the vault, a failed one shows ["biometric_fail"]
    and an unavailable one ["biometric_unavailable"], both leaving the
    session as it is. *)
Theorem X6_factors_in_order_open_the_vault
    (now : Z) (entered : list Z) (env1 env2 env3 : Devices) (self : App) :
  _failed_attempts self < MAX_ATTEMPTS ->
  _verify_passkey self (strip entered) = Some true ->
  let self1 := with_auth (put "failed_attempts" (VInt 0)) (set_failed_attempts 0 self) in
  let s1 := set_step 1 (set_verified "passkey" fresh_session) in
  let s2 := set_step 2 (set_verified "voice" s1) in
  let s3 := set_step 3 (set_verified "face" s2) in
  run (self, VerificationPage fresh_session) [Verify (EnterPasskey now entered)]
    = Some (self1, VerificationPage s1)
  /\ run (self, VerificationPage fresh_session)
       [Verify (EnterPasskey now entered); Verify (VerifyVoice env1)]
     = Some (self1, VerificationPage s2)
  /\ (is_mobile = false ->
      run (self, VerificationPage fresh_session)
        [Verify (EnterPasskey now entered); Verify (VerifyVoice env1);
         Verify (VerifyFace env2)]
      = Some (self1, VaultPage))
  /\ (is_mobile = true ->
      run (self, VerificationPage fresh_session)
        [Verify (EnterPasskey now entered); Verify (VerifyVoice env1);
         Verify (VerifyFace env2)]
      = Some (self1, VerificationPage s3)
      /\ sequencer_step (VerifyFingerprint env3) self1 s3
         = Some (self1,
                 match local_authentication env3 with
                 | LoginEvent false => VaultPage
                 | LoginEvent true => VerificationPage (set_err (T "biometric_fail") s3)
                 | LoginRaises => VerificationPage (set_err (T "biometric_unavailable") s3)
                 end)).
Proof.
  intros Hn Hv self1 s1 s2 s3.
  pose proof (login_right_passkey_fresh now entered self Hn Hv) as H1.
  fold self1 s1 in H1.
  assert (Hvoice : login_verify_voice env1 s1 = Some (voice_script, VerificationPage s2))
    by (unfold login_verify_voice, _next_step, _check_complete;
        destruct is_mobile; vm_compute; reflexivity).
  assert (Hrun1 : run (self, VerificationPage fresh_session) [Verify (EnterPasskey now entered)]
                  = Some (self1, VerificationPage s1)).
  { cbn [run step sequencer_step fst snd]. change (current_step fresh_session =? 0) with true.
    cbn match. by rewrite H1. }
  assert (Hrun2 : run (self, VerificationPage fresh_session)
                    [Verify (EnterPasskey now entered); Verify (VerifyVoice env1)]
                  = Some (self1, VerificationPage s2)).
  { cbn [run step sequencer_step fst snd]. change (current_step fresh_session =? 0) with true.
    cbn match. rewrite H1. cbn [mbind option_bind run step sequencer_step fst snd].
    change (current_step s1 =? 1) with true. cbn match. by rewrite Hvoice. }
  split; [exact Hrun1|]. split; [exact Hrun2|]. split.
  - intros Hm.
    assert (Hface : login_verify_face env2 s2 = Some (face_script, VaultPage))
      by (unfold login_verify_face, _next_step, _check_complete; rewrite Hm;
          vm_compute; reflexivity).
    cbn [run step sequencer_step fst snd]. change (current_step fresh_session =? 0) with true.
    cbn match. rewrite H1. cbn [mbind option_bind run step sequencer_step fst snd].
    change (current_step s1 =? 1) with true. cbn match. rewrite Hvoice.
    cbn [mbind option_bind run step sequencer_step fst snd].
    change (current_step s2 =? 2) with true. cbn match. by rewrite Hface.
  - intros Hm.
    assert (Hface : login_verify_face env2 s2 = Some (face_script, VerificationPage s3))
      by (unfold login_verify_face, _next_step, _check_complete; rewrite Hm;
          vm_compute; reflexivity).
    split.
    + cbn [run step sequencer_step fst snd]. change (current_step fresh_session =? 0) with true.
      cbn match. rewrite H1. cbn [mbind option_bind run step sequencer_step fst snd].
      change (current_step s1 =? 1) with true. cbn match. rewrite Hvoice.
      cbn [mbind option_bind run step sequencer_step fst snd].
      change (current_step s2 =? 2) with true. cbn match. by rewrite Hface.
    + cbn [sequencer_step]. change (current_step s3 =? 3) with true. rewrite Hm.
      cbn [andb]. unfold login_verify_fingerprint. rewrite Hm.
      destruct (local_authentication env3) as [|[]]; [done|done|].
      unfold _check_complete. rewrite Hm. vm_compute. reflexivity.
Qed.

(** *** More on the passkey forms *)

(** X7. A change-passkey request that is not accepted changes nothing: the
    handler answers ["wrong_current"], ["pass_too_short"] or
    ["pass_mismatch"], tested in that order on the stripped texts, and
    returns the object with its shelf exactly as received. *)
Theorem X7_rejected_change_leaves_everything
    (salt current new confirm : list Z) (self self' : App) (msg : text) :
  change_passkey_save salt current new confirm self = Some (self', msg) ->
  msg <> T "passkey_changed" ->
  self' = self
  /\ ((msg = T "wrong_current" /\ _verify_passkey self (strip current) = Some false)
      \/ (msg = T "pass_too_short" /\ _verify_passkey self (strip current) = Some true
          /\ (length (strip new) < 4)%nat)
      \/ (msg = T "pass_mismatch" /\ _verify_passkey self (strip current) = Some true
          /\ (4 <= length (strip new))%nat /\ strip new <> strip confirm)).
Proof.
  unfold change_passkey_save. intros Hrun Hmsg.
  destruct (_verify_passkey self (strip current)) as [[]|]; [| |done];
    cbn [mbind option_bind negb] in Hrun.
  - destruct (Z.ltb_spec (Z.of_nat (length (strip new))) 4).
    + apply (inj Some) in Hrun. injection Hrun as <- <-. split; [done|].
      right. left. split; [done|]. split; [done|]. lia.
    + destruct (decide (strip new = strip confirm)) as [Heq|Hne].
      * rewrite bool_decide_eq_true_2 in Hrun by done. cbn [negb] in Hrun.
        destruct (_save_passkey _ _ _); [|done]. cbn [mbind option_bind] in Hrun.
        apply (inj Some) in Hrun. injection Hrun as _ <-. done.
      * rewrite bool_decide_eq_false_2 in Hrun by done. cbn [negb] in Hrun.
        apply (inj Some) in Hrun. injection Hrun as <- <-. split; [done|].
        right. right. split; [done|]. split; [done|]. split; [lia|done].
  - apply (inj Some) in Hrun. injection Hrun as <- <-. split; [done|]. by left.
Qed.

(** X8. The recovery reset, given a new passkey of at least four
    characters typed the same twice, installs it and lifts any lockout:
    the new passkey verifies, the deadline and the lockout count are cleared
    in memory and on the shelf, [_is_locked_out] answers false at any time,
    and the passkey form of a new session is shown.  The recovery answer on
    the shelf is untouched, and so is the failure counter of the object. *)
Theorem X8_reset_installs_passkey_and_lifts_lockout
    (now : Z) (salt new confirm h : list Z) (self : App) :
  (4 <= length (strip new))%nat ->
  strip confirm = strip new ->
  _hash_passkey (strip new) salt = Some h ->
  exists self',
    reset_passkey_save now salt new confirm self
    = Some (self', T "passkey_changed", Some (VerificationPage fresh_session))
    /\ _verify_passkey self' (strip new) = Some true
    /\ _lockout_until self' = None /\ _lockout_count self' = 0
    /\ get "lockout_until" VNone (auth self') = VNone
    /\ get "lockout_count" (VInt 0) (auth self') = VInt 0
    /\ get "failed_attempts" VNone (auth self') = VInt 0
    /\ (forall t, _is_locked_out t self' = (false, self'))
    /\ (forall answer, _verify_secret_answer self' answer = _verify_secret_answer self answer)
    /\ _failed_attempts self' = _failed_attempts self.
Proof.
  intros Hlen Hconf Hh. unfold reset_passkey_save. rewrite Hconf.
  destruct (Z.ltb_spec (Z.of_nat (length (strip new))) 4); [lia|].
  rewrite bool_decide_eq_true_2 by done. cbn [negb].
  assert (Hsave : _save_passkey salt (strip new) self
                  = Some (with_auth (put "pass_hash" (VStr h))
                            (with_auth (put "salt" (VStr salt)) self)))
    by (unfold _save_passkey; by rewrite Hh).
  rewrite Hsave. cbn [mbind option_bind].
  set (self1 := with_auth _ (with_auth _ self)) in *.
  unfold page_fuel. rewrite build_verification_after_clear. cbn [mbind option_bind].
  exists (_clear_lockout self1). split; [done|].
  destruct (clear_lockout_spec self1) as (Hu & Hc & Hlu & Hlc & Hfa & Hf & Hs & Hp).
  split.
  { rewrite (verify_passkey_frame self1 (_clear_lockout self1)) by done.
    rewrite (verify_after_save _ _ _ _ _ _ _ Hsave Hh Hh). by rewrite bool_decide_eq_true_2. }
  repeat (split; [done|]). split; [|split].
  - intros t. apply is_locked_out_clear.
  - intros answer. apply verify_secret_answer_frame.
    + rewrite clear_lockout_frame by done. unfold self1, put. cbn [auth with_auth].
      by rewrite !lookup_insert_ne.
    + rewrite clear_lockout_frame by done. unfold self1, put. cbn [auth with_auth].
      by rewrite !lookup_insert_ne.
  - by rewrite Hf.
Qed.

(** X9. Wrong recovery answers cost nothing: on the verification page or
    on the lockout page, any number of recovery attempts whose answer does
    not verify leave the object, its shelf and the page as they are; no
    failure is counted and no lockout starts. *)
Theorem X9_wrong_recovery_answers_are_not_counted
    (self : App) (page : Page) (attempts : list (Z * list Z * list Z * list Z * list Z)) :
  (page = LockoutPage \/ exists s, page = VerificationPage s) ->
  Forall (fun a => _verify_secret_answer self a.1.1.1.2 = Some false) attempts ->
  run (self, page)
    ((fun a => Recover a.1.1.1.1 a.1.1.1.2 a.1.1.2 a.1.2 a.2) <$> attempts)
  = Some (self, page).
Proof.
  intros Hpage Hall. induction Hall as [|a attempts Ha _ IH]; [done|].
  cbn [fmap list_fmap run]. 
  assert (Hstep : step (self, page) (Recover a.1.1.1.1 a.1.1.1.2 a.1.1.2 a.1.2 a.2)
                  = Some (self, page)).
  { cbn [step fst snd]. unfold forgot_passkey_verify.
    destruct Hpage as [-> | [s ->]]; by rewrite Ha. }
  rewrite Hstep. cbn [mbind option_bind]. exact IH.
Qed.

Lemma verify_without_stored_passkey (self : App) (passkey : list Z) :
  auth self !! "salt" = None ->
  auth self !! "pass_hash" = None ->
  is_Some (encode passkey) ->
  _has_passkey self = false /\ _verify_passkey self passkey = Some false.
Proof.
  intros Hs Hp [bytes Hb]. unfold _has_passkey, _verify_passkey, get. rewrite Hs, Hp.
  split; [done|]. cbn [default as_str mbind option_bind].
  assert (Hh : _hash_passkey passkey [] = Some (Sha256.hex (Sha256.hmac [] bytes)))
    by (unfold _hash_passkey; by rewrite Hb).
  rewrite Hh. cbn [mbind option_bind]. unfold compare_digest.
  destruct (hash_passkey_shape _ _ _ Hh) as [Hl Ha].
  rewrite (hexdigits_isascii _ Ha). cbn [isascii forallb andb].
  rewrite bool_decide_eq_false_2; [done|].
  intros Heq. by rewrite Heq in Hl.
Qed.

(** X11. Against a shelf without passkey nothing verifies: with neither
    ['salt'] nor ['pass_hash'] stored, [_has_passkey] is false and
    [_verify_passkey] answers false for every passkey that can be encoded
    (the keyed hash under the empty salt is 64 characters, the stored hash
    reads as the empty text). *)
Theorem X11_nothing_verifies_without_a_stored_passkey (self : App) (passkey : list Z) :
  auth self !! "salt" = None ->
  auth self !! "pass_hash" = None ->
  is_Some (encode passkey) ->
  _has_passkey self = false /\ _verify_passkey self passkey = Some false.
Proof.
  intros Hs Hp He. split.
  - by destruct (verify_without_stored_passkey self passkey Hs Hp He).
  - by destruct (verify_without_stored_passkey self passkey Hs Hp He).
Qed.

(** *** Setup and reset *)

Lemma setup_final_passkey_stays (salt answer_salt entered : list Z) (self : App)
    (s : Session) :
  verified s !! "voice" = Some false ->
  exists s',
    setup_final_verify_passkey salt answer_salt entered self s = Some (self, SetupStep 6, s')
    /\ verified s' !! "voice" = Some false
    /\ verified s' !! "face" = verified s !! "face"
    /\ (verified s' !! "passkey" = Some true
        <-> verified s !! "passkey" = Some true
            \/ VStr (strip entered) = default (VStr []) (_setup_data self !! "passkey")).
Proof.
  intros Hv. unfold setup_final_verify_passkey.
  destruct (decide (VStr (strip entered)
                    = default (VStr []) (_setup_data self !! "passkey"))) as [He|He].
  - rewrite (bool_decide_eq_true_2 _ He).
    unfold _next_verification, _check_all_verified, set_step, set_err, set_verified.
    cbn [verified current_step status_text err_text]. rewrite lookup_insert_eq.
    rewrite !lookup_insert_ne by done. rewrite Hv. cbn [py_and mbind option_bind].
    destruct is_mobile; cbn [py_and mbind option_bind];
      (eexists; split; [reflexivity|]; cbn [verified];
       rewrite lookup_insert_eq, !lookup_insert_ne by done;
       split; [done|]; split; [done|]; split; [by right | done]).
  - rewrite (bool_decide_eq_false_2 _ He). eexists. split; [reflexivity|].
    unfold set_err. cbn [verified]. split; [done|]. split; [done|].
    split; [by left | by intros [?|?]].
Qed.

(** X10. The last setup page cannot complete setup: it only ever shows its
    passkey form, and however many passkeys are entered there, right or
    wrong, the page stays, the object and its shelf are as they were, and
    voice and face stay unverified; [_complete_setup] is not called.  The
    gate [_check_all_verified] reaches the vault page only from a dictionary
    with passkey, voice and face marked (and fingerprint on mobile). *)
Theorem X10_last_setup_page_never_completes
    (salt answer_salt : list Z) (entries : list (list Z)) (self : App) :
  (exists s,
     setup_final_passkeys salt answer_salt entries self fresh_session
     = Some (self, SetupStep 6, s)
     /\ verified s !! "voice" = Some false
     /\ verified s !! "face" = Some false
     /\ (verified s !! "passkey" = Some true
         <-> exists entered,
               entered ∈ entries
               /\ VStr (strip entered) = default (VStr []) (_setup_data self !! "passkey")))
  /\ (forall s self' s',
        _check_all_verified salt answer_salt self s = Some (self', VaultPage, s') ->
        verified s !! "passkey" = Some true /\ verified s !! "voice" = Some true
        /\ verified s !! "face" = Some true
        /\ (is_mobile = true -> verified s !! "fingerprint" = Some true)).
Proof.
  split.
  - assert (Hgen : forall s,
              verified s !! "voice" = Some false ->
              exists s',
                setup_final_passkeys salt answer_salt entries self s
                = Some (self, SetupStep 6, s')
                /\ verified s' !! "voice" = Some false
                /\ verified s' !! "face" = verified s !! "face"
                /\ (verified s' !! "passkey" = Some true
                    <-> verified s !! "passkey" = Some true
                        \/ exists entered,
                             entered ∈ entries
                             /\ VStr (strip entered)
                                = default (VStr []) (_setup_data self !! "passkey"))).
    { induction entries as [|entered entries IH]; intros s Hv.
      - exists s. split; [done|]. split; [done|]. split; [done|].
        split; [by left|]. intros [?|(entered & Hin & _)]; [done|].
        by apply elem_of_nil in Hin.
      - destruct (setup_final_passkey_stays salt answer_salt entered self s Hv)
          as (s1 & Hrun & Hv1 & Hf1 & Hp1).
        destruct (IH s1 Hv1) as (s' & Hrest & Hv' & Hf' & Hp').
        exists s'. cbn [setup_final_passkeys]. rewrite Hrun.
        cbn [mbind option_bind fst snd]. split; [exact Hrest|]. split; [exact Hv'|].
        split; [by rewrite Hf', Hf1|]. rewrite Hp', Hp1. split.
        + intros [[?|He]|(e & Hin & He)]; [by left| |].
          * right. exists entered. split; [apply list_elem_of_here | exact He].
          * right. exists e. split; [by apply list_elem_of_further | exact He].
        + intros [?|(e & Hin & He)]; [by left; left|].
          apply elem_of_cons in Hin as [->|Hin]; [by left; right|].
          right. by exists e. }
    destruct (Hgen fresh_session) as (s & Hrun & Hv & Hf & Hp).
    { unfold fresh_session. cbn [verified]. by simplify_map_eq. }
    exists s. split; [exact Hrun|]. split; [exact Hv|]. split.
    { rewrite Hf. unfold fresh_session. cbn [verified]. by simplify_map_eq. }
    rewrite Hp. split; [|by right]. intros [Hfresh|?]; [|done].
    exfalso. revert Hfresh. unfold fresh_session. cbn [verified]. by simplify_map_eq.
  - intros s self' s'. unfold _check_all_verified, py_and.
    destruct (verified s !! "passkey") as [[]|]; cbn [mbind option_bind]; [| |done].
    + destruct (verified s !! "voice") as [[]|]; cbn [mbind option_bind]; [| |done].
      * destruct (verified s !! "face") as [[]|]; cbn [mbind option_bind]; [| |done].
        -- destruct is_mobile; cbn [mbind option_bind].
           ++ destruct (verified s !! "fingerprint") as [[]|]; cbn [mbind option_bind];
                by intros.
           ++ by intros.
        -- destruct is_mobile; cbn [mbind option_bind]; by intros.
      * destruct is_mobile; cbn [mbind option_bind]; by intros.
    + destruct is_mobile; cbn [mbind option_bind]; by intros.
Qed.

(** X12. A vault reset wipes the three boxes and starts setup again,
    whatever the lockout state: the shelf is empty, no credential is left,
    no passkey verifies, and a restart at any time shows the first setup
    page, even while a lockout deadline was running.  The attributes of the
    object (failure counter, deadline) are not touched by the reset itself. *)
Theorem X12_reset_wipes_the_vault_and_any_lockout
    (now : Z) (passkey : list Z) (self : App)
    (vault : gmap string (list (gmap string (list Z)))) (settings : gmap string value) :
  is_Some (encode passkey) ->
  exists self',
    confirm_reset_yes self vault settings = ((self', SetupStep 1), ∅, ∅)
    /\ auth self' = ∅
    /\ get_all (confirm_reset_yes self vault settings).1.2 = []
    /\ _has_passkey self' = false
    /\ _verify_passkey self' passkey = Some false
    /\ restart now self' = Some (__init__ ∅, SetupStep 1)
    /\ _lockout_until self' = _lockout_until self
    /\ _failed_attempts self' = _failed_attempts self.
Proof.
  intros Hp. eexists. split; [reflexivity|]. split; [done|]. split; [done|].
  destruct (verify_without_stored_passkey
              (set_setup_data ∅ (with_auth clear_all self)) passkey) as [Hh Hv];
    [done | done | done |].
  split; [exact Hh|]. split; [exact Hv|]. split; [|done].
  unfold restart, main. cbn. done.
Qed.

(** *** The credential list *)

Lemma get_all_update_at {A} (index : Z) (v : A) (box : gmap string (list A)) :
  get_all (update_at index v box)
  = if (0 <=? index) && (index <? Z.of_nat (length (get_all box)))
    then <[Z.to_nat index := v]> (get_all box) else get_all box.
Proof.
  unfold update_at, get_all. destruct (_ && _); [|done].
  by rewrite lookup_insert_eq.
Qed.

Lemma get_all_delete_at {A} (index : Z) (box : gmap string (list A)) :
  get_all (delete_at index box)
  = if (0 <=? index) && (index <? Z.of_nat (length (get_all box)))
    then delete (Z.to_nat index) (get_all box) else get_all box.
Proof.
  unfold delete_at, get_all. destruct (_ && _); [|done].
  by rewrite lookup_insert_eq.
Qed.

Lemma get_all_add {A} (v : A) (box : gmap string (list A)) :
  get_all (add v box) = get_all box ++ [v].
Proof. unfold add, get_all. by rewrite lookup_insert_eq. Qed.

(** X13. [update_at] writes one position and nothing else: reading the
    list back gives the new value at [index] when [0 <= index < len], and
    the old value at every other position; the length is kept, the other
    keys of the box are kept, and an index outside the list (negative ones
    included, which Python would count from the end) leaves the box as it
    is. *)
Theorem X13_update_at_writes_one_position {A} (index : Z) (v : A)
    (box : gmap string (list A)) (j : nat) (key : string) :
  get_all (update_at index v box) !! j
  = (if bool_decide (0 <= index < Z.of_nat (length (get_all box)) /\ j = Z.to_nat index)
     then Some v else get_all box !! j)
  /\ length (get_all (update_at index v box)) = length (get_all box)
  /\ (key <> "_items" -> update_at index v box !! key = box !! key)
  /\ (~ 0 <= index < Z.of_nat (length (get_all box)) -> update_at index v box = box).
Proof.
  split; [|split; [|split]].
  - rewrite get_all_update_at.
    destruct (Z.leb_spec 0 index), (Z.ltb_spec index (Z.of_nat (length (get_all box))));
      cbn [andb]; try (rewrite bool_decide_eq_false_2; [done | lia]).
    destruct (decide (j = Z.to_nat index)) as [->|Hne].
    + rewrite bool_decide_eq_true_2 by done. apply list_lookup_insert_eq. lia.
    + rewrite bool_decide_eq_false_2 by (intros [_ ?]; done).
      by apply list_lookup_insert_ne.
  - rewrite get_all_update_at. destruct (_ && _); [apply length_insert | done].
  - intros Hk. unfold update_at. destruct (_ && _); [|done]. by rewrite lookup_insert_ne.
  - intros Hout. unfold update_at. fold (get_all box).
    destruct (Z.leb_spec 0 index), (Z.ltb_spec index (Z.of_nat (length (get_all box))));
      cbn [andb]; try done. lia.
Qed.

(** X14. [delete_at] removes one record: with [0 <= index < len] the list
    read back is the old one without position [index] (the records before
    keep their place, the later ones move up by one, the length drops by
    one); with any other index the box is left as it is. *)
Theorem X14_delete_at_removes_one_record {A} (index : Z) (box : gmap string (list A))
    (j : nat) :
  (0 <= index < Z.of_nat (length (get_all box)) ->
     get_all (delete_at index box)
       = take (Z.to_nat index) (get_all box) ++ drop (S (Z.to_nat index)) (get_all box)
     /\ S (length (get_all (delete_at index box))) = length (get_all box)
     /\ get_all (delete_at index box) !! j
        = if decide (j < Z.to_nat index)%nat then get_all box !! j
          else get_all box !! S j)
  /\ (~ 0 <= index < Z.of_nat (length (get_all box)) -> delete_at index box = box).
Proof.
  split.
  - intros Hin. rewrite get_all_delete_at.
    destruct (Z.leb_spec 0 index); [|lia].
    destruct (Z.ltb_spec index (Z.of_nat (length (get_all box)))); [|lia]. cbn [andb].
    split; [apply delete_take_drop|]. split.
    + rewrite length_delete; [lia|]. apply lookup_lt_is_Some. lia.
    + case_decide.
      * by apply list_lookup_delete_lt.
      * apply list_lookup_delete_ge. lia.
  - intros Hout. unfold delete_at. fold (get_all box).
    destruct (Z.leb_spec 0 index), (Z.ltb_spec index (Z.of_nat (length (get_all box))));
      cbn [andb]; try done. lia.
Qed.

(** X15. [add] appends: the list read back is the old one followed by the
    new record, also on a box that never held a list; the new record sits
    at index [len], where [update_at] replaces it and [delete_at] removes it
    again, giving back the old list. *)
Theorem X15_add_appends_and_delete_undoes {A} (v w : A) (box : gmap string (list A)) :
  get_all (add v box) = get_all box ++ [v]
  /\ get_all (add v ∅) = [v]
  /\ get_all (update_at (Z.of_nat (length (get_all box))) w (add v box))
     = get_all box ++ [w]
  /\ get_all (delete_at (Z.of_nat (length (get_all box))) (add v box)) = get_all box.
Proof.
  split; [apply get_all_add|]. split; [done|].
  assert (Hin : (0 <=? Z.of_nat (length (get_all box)))
                && (Z.of_nat (length (get_all box))
                    <? Z.of_nat (length (get_all (add v box)))) = true).
  { rewrite get_all_add, length_app. cbn [length].
    apply andb_true_iff. split; [apply Z.leb_le | apply Z.ltb_lt]; lia. }
  split.
  - rewrite get_all_update_at, Hin, get_all_add, Nat2Z.id.
    rewrite insert_app_r_alt by lia. by rewrite Nat.sub_diag.
  - rewrite get_all_delete_at, Hin, get_all_add, Nat2Z.id.
    rewrite delete_take_drop, take_app_length, drop_app_ge by lia.
    replace (S (length (get_all box)) - length (get_all box))%nat with 1%nat by lia.
    cbn [drop]. by rewrite app_nil_r.
Qed.

(** *** The vault page *)

(** X16. Every card of the vault page addresses the record it shows: each
    pair [(i, c)] listed by [_refresh_content], with or without a search
    query, has [c] at position [i] of the stored list, so the delete handler
    called with the card's index removes that very record and the copy
    handlers copy its user name and password; a listed record matches the
    query, and without query every record is listed. *)
Theorem X16_cards_address_the_record_shown
    (q : list Z) (vault : gmap string (list (gmap string (list Z)))) (i : nat)
    (c : gmap string (list Z)) :
  (i, c) ∈ _refresh_content q vault ->
  get_all vault !! i = Some c
  /\ get_all (confirm_delete_yes (Z.of_nat i) vault) = delete i (get_all vault)
  /\ _copy_user (Z.of_nat i) vault = Some (field "user" c)
  /\ _copy_pass (Z.of_nat i) vault = Some (field "pass" c)
  /\ (q <> [] -> contains q (str_lower (field "app" c))
                 || contains q (str_lower (field "user" c)) = true)
  /\ (q = [] -> _refresh_content q vault = imap pair (get_all vault)).
Proof.
  intros Hin.
  assert (Hlook : get_all vault !! i = Some c /\
                  (q <> [] -> contains q (str_lower (field "app" c))
                             || contains q (str_lower (field "user" c)) = true)).
  { unfold _refresh_content in Hin. destruct (decide (q = [])) as [Hq|Hq].
    - rewrite bool_decide_eq_true_2 in Hin by done. cbn [negb] in Hin.
      apply elem_of_lookup_imap in Hin as (i' & c' & Heq & Hl). by simplify_eq.
    - rewrite bool_decide_eq_false_2 in Hin by done. cbn [negb] in Hin.
      apply list_elem_of_filter in Hin as [Hm Hin].
      apply elem_of_lookup_imap in Hin as (i' & c' & Heq & Hl). by simplify_eq. }
  destruct Hlook as [Hl Hmatch].
  assert (Hrange : (0 <=? Z.of_nat i) && (Z.of_nat i <? Z.of_nat (length (get_all vault)))
                   = true).
  { apply lookup_lt_Some in Hl. apply andb_true_iff.
    split; [apply Z.leb_le | apply Z.ltb_lt]; lia. }
  split; [exact Hl|]. split.
  { unfold confirm_delete_yes. by rewrite get_all_delete_at, Hrange, Nat2Z.id. }
  split.
  { unfold _copy_user. by rewrite Hrange, Nat2Z.id, Hl. }
  split.
  { unfold _copy_pass. by rewrite Hrange, Nat2Z.id, Hl. }
  split; [exact Hmatch|].
  intros ->. unfold _refresh_content. by rewrite bool_decide_eq_true_2.
Qed.

Lemma credential_save_well_formed (edit_index : option Z) (a u p : list Z)
    (vault : gmap string (list (gmap string (list Z)))) :
  Forall well_formed_credential (get_all vault) ->
  Forall well_formed_credential (get_all (credential_save edit_index a u p vault).1).
Proof.
  intros Hall. unfold credential_save.
  destruct (decide (strip a = [])) as [Ha|Ha];
    [by rewrite (bool_decide_eq_true_2 _ Ha)|].
  destruct (decide (strip u = [])) as [Hu|Hu];
    [by rewrite (bool_decide_eq_true_2 _ Hu), orb_true_r|].
  destruct (decide (strip p = [])) as [Hp|Hp];
    [by rewrite (bool_decide_eq_true_2 _ Hp), orb_true_r|].
  rewrite !bool_decide_eq_false_2 by done. cbn [orb].
  assert (Hrec : well_formed_credential
                   (<["app" := strip a]> (<["user" := strip u]> (<["pass" := strip p]> ∅)))).
  { unfold well_formed_credential, field. simplify_map_eq. cbn [default].
    by rewrite !strip_idemp. }
  destruct edit_index as [i|]; cbn [fst].
  - rewrite get_all_update_at. destruct (_ && _); [|done]. by apply Forall_insert.
  - rewrite get_all_add. apply Forall_app. split; [done|]. by constructor.
Qed.

(** X17. The credential list only holds complete, trimmed records: starting
    from a list of such records (the empty vault, for one), after any
    sequence of saves of new records, saves of edits and deletions, every
    stored credential has a non-empty application, user name and password,
    none of them with whitespace at either end. *)
Theorem X17_stored_credentials_are_complete_and_trimmed
    (ops : list VaultOp) (vault : gmap string (list (gmap string (list Z)))) :
  Forall well_formed_credential (get_all vault) ->
  Forall well_formed_credential (get_all (foldl vault_step vault ops)).
Proof.
  revert vault. induction ops as [|op ops IH]; intros vault Hall; [done|].
  cbn [foldl]. apply IH. destruct op as [a u p|i a u p|i]; cbn [vault_step].
  - by apply credential_save_well_formed.
  - by apply credential_save_well_formed.
  - unfold confirm_delete_yes. rewrite get_all_delete_at.
    destruct (_ && _); [|done]. by apply Forall_delete.
Qed.

(** X18. The countdown of a lockout never shows more than an hour: at any
    time from the moment [_apply_lockout] ran, the text [update_countdown]
    would show for the remaining time is either seconds alone, below sixty,
    or minutes from 1 to 60 with seconds below sixty (none at 60 minutes),
    and it adds up to the remaining seconds. *)
Theorem X18_countdown_shows_at_most_an_hour (now t c : Z) (self : App) :
  get "lockout_count" (VInt 0) (auth self) = VInt c -> 0 <= c -> now <= t ->
  exists self',
    _apply_lockout now self = Some self'
    /\ match countdown_text (_get_lockout_remaining t self') with
       | Sec secs => secs = _get_lockout_remaining t self' /\ 0 <= secs < 60
       | MinSec mins secs =>
           mins * 60 + secs = _get_lockout_remaining t self'
           /\ 1 <= mins <= 60 /\ 0 <= secs < 60 /\ (mins = 60 -> secs = 0)
       end.
Proof.
  intros Hc Hpos Ht.
  destruct (apply_lockout_capped now c self Hc Hpos) as (self' & u & Ha & Hu & _ & Hcap).
  exists self'. split; [done|]. specialize (Hcap t Ht).
  assert (Hnn : 0 <= _get_lockout_remaining t self')
    by (rewrite (remaining_spec _ _ _ Hu); lia).
  set (r := _get_lockout_remaining t self') in *. unfold countdown_text.
  pose proof (Z.div_mod r 60 ltac:(lia)) as Hdm.
  pose proof (Z.mod_pos_bound r 60 ltac:(lia)) as Hmod.
  destruct (Z.ltb_spec 0 (r / 60)) as [Hm|Hm].
  - split; [lia|]. split; [lia|]. split; [lia|]. lia.
  - assert (0 <= r / 60) by (apply Z.div_pos; lia). split; lia.
Qed.

(** X19. Opening the edit dialog on a record the dialog stored and saving
    it untouched is the identity: with a complete, trimmed record at
    position [i], [_open_dialog] shows its three fields, [_save] accepts them
    without message, and the list read back is the list as it was. *)
Theorem X19_edit_without_change_keeps_the_list
    (i : nat) (a u p : list Z) (vault : gmap string (list (gmap string (list Z)))) :
  get_all vault !! i = Some (credential a u p) ->
  well_formed_credential (credential a u p) ->
  _open_dialog (Some (Z.of_nat i)) vault = Some (a, u, p)
  /\ (credential_save (Some (Z.of_nat i)) a u p vault).2 = Blank
  /\ get_all (credential_save (Some (Z.of_nat i)) a u p vault).1 = get_all vault.
Proof.
  intros Hl Hwf.
  assert (Hfa : field "app" (credential a u p) = a)
    by (unfold field, credential; by simplify_map_eq).
  assert (Hfu : field "user" (credential a u p) = u)
    by (unfold field, credential; by simplify_map_eq).
  assert (Hfp : field "pass" (credential a u p) = p)
    by (unfold field, credential; by simplify_map_eq).
  destruct Hwf as (Ha & Hu & Hp & Hsa & Hsu & Hsp).
  rewrite Hfa in Ha, Hsa. rewrite Hfu in Hu, Hsu. rewrite Hfp in Hp, Hsp.
  assert (Hrange : (0 <=? Z.of_nat i) && (Z.of_nat i <? Z.of_nat (length (get_all vault)))
                   = true).
  { apply lookup_lt_Some in Hl. apply andb_true_iff.
    split; [apply Z.leb_le | apply Z.ltb_lt]; lia. }
  split.
  { unfold _open_dialog, py_index. rewrite Hrange, Nat2Z.id, Hl. cbn.
    by rewrite Hfa, Hfu, Hfp. }
  unfold credential_save. rewrite Hsa, Hsu, Hsp.
  rewrite !bool_decide_eq_false_2 by done. cbn [orb fst snd].
  split; [done|].
  rewrite get_all_update_at, Hrange, Nat2Z.id.
  by apply list_insert_id.
Qed.

(** On ASCII text [str.lower] is [ascii_lower]. *)
Hypothesis str_lower_ascii :
  forall s, isascii s = true -> str_lower s = ascii_lower s.

Lemma strip_lower_paris :
  str_lower (strip (txt "paris")) = str_lower (strip (txt "Paris"))
  /\ str_lower (strip (txt " paris ")) = str_lower (strip (txt "Paris")).
Proof.
  change (strip (txt "paris")) with (txt "paris").
  change (strip (txt " paris ")) with (txt "paris").
  change (strip (txt "Paris")) with (txt "Paris").
  rewrite !str_lower_ascii by done. done.
Qed.

(** C5. A candidate that equals the stored recovery answer after stripping
    and lower-casing verifies; verification does not change when whitespace
    is added around a candidate, nor between two candidates with the same
    lower-cased form; and ["Paris"], ["paris"] and [" paris "] all verify
    against a stored answer ["Paris"]. *)
Theorem C5_recovery_answer_is_normalised :
  (forall answer_salt question stored candidate self self',
     _save_secret_question answer_salt question stored self = Some self' ->
     str_lower (strip candidate) = str_lower (strip stored) ->
     _verify_secret_answer self' candidate = Some true)
  /\ (forall self ws1 ws2 candidate,
        Forall (fun c => isspace c = true) ws1 ->
        Forall (fun c => isspace c = true) ws2 ->
        _verify_secret_answer self (ws1 ++ candidate ++ ws2)
        = _verify_secret_answer self candidate)
  /\ (forall self c1 c2,
        str_lower (strip c1) = str_lower (strip c2) ->
        _verify_secret_answer self c1 = _verify_secret_answer self c2)
  /\ (forall answer_salt question self self',
        _save_secret_question answer_salt question (txt "Paris") self = Some self' ->
        _verify_secret_answer self' (txt "Paris") = Some true
        /\ _verify_secret_answer self' (txt "paris") = Some true
        /\ _verify_secret_answer self' (txt " paris ") = Some true).
Proof.
  split; [|split; [|split]].
  - intros answer_salt question stored candidate self self' Hsave Heq.
    rewrite (verify_secret_answer_normal self' candidate stored Heq).
    by eapply verify_saved_answer.
  - intros self ws1 ws2 candidate H1 H2.
    apply verify_secret_answer_normal. by rewrite strip_padded.
  - intros self c1 c2. apply verify_secret_answer_normal.
  - intros answer_salt question self self' Hsave.
    destruct strip_lower_paris as [Hp1 Hp2].
    rewrite (verify_secret_answer_normal self' _ _ Hp1).
    rewrite (verify_secret_answer_normal self' _ _ Hp2).
    by rewrite (verify_saved_answer _ _ _ _ _ Hsave).
Qed.

End Vault.

(** ** Worked runs on the sample installation

    The platform is a desktop ([is_mobile] false) and all text is ASCII, so
    [ascii_lower] stands for [str.lower]. *)

(** C1. The failing run: the vault is locked by three wrong passkeys (60
    seconds, lockout count 1); the countdown sees the window over at second
    63 and the user then enters three more wrong passkeys.  The second
    lockout is again one of 60 seconds with lockout count 1 on the shelf,
    where the claim expects about 120 seconds. *)
Theorem C1_second_lockout_after_countdown_is_sixty_seconds :
  lockout_view (seconds 3)
    (run ascii_lower false (sample_vault ascii_lower, VaultPage)
       [Relaunch 0; wrong (seconds 1); wrong (seconds 2); wrong (seconds 3)])
  = Some (true, 60, 0, VInt 1)
  /\ lockout_view (seconds 73)
       (run ascii_lower false (sample_vault ascii_lower, VaultPage)
          [Relaunch 0; wrong (seconds 1); wrong (seconds 2); wrong (seconds 3);
           TimerTick (seconds 63);
           wrong (seconds 71); wrong (seconds 72); wrong (seconds 73)])
     = Some (true, 60, 0, VInt 1).
Proof.
  split.
  - vm_compute. reflexivity.
  - vm_compute. reflexivity.
Qed.

(** The sibling path: when the window runs out while the application is
    closed, the count on the shelf is kept, and the second and third lockouts
    last 120 and 240 seconds. *)
Lemma lockouts_double_across_restarts :
  lockout_view (seconds 73)
    (run ascii_lower false (sample_vault ascii_lower, VaultPage)
       [Relaunch 0; wrong (seconds 1); wrong (seconds 2); wrong (seconds 3);
        Relaunch (seconds 70);
        wrong (seconds 71); wrong (seconds 72); wrong (seconds 73)])
  = Some (true, 120, 0, VInt 2)
  /\ lockout_view (seconds 203)
       (run ascii_lower false (sample_vault ascii_lower, VaultPage)
          [Relaunch 0; wrong (seconds 1); wrong (seconds 2); wrong (seconds 3);
           Relaunch (seconds 70);
           wrong (seconds 71); wrong (seconds 72); wrong (seconds 73);
           Relaunch (seconds 200);
           wrong (seconds 201); wrong (seconds 202); wrong (seconds 203)])
     = Some (true, 240, 0, VInt 3).
Proof.
  split.
  - vm_compute. reflexivity.
  - vm_compute. reflexivity.
Qed.

(** C3. The failing run: two wrong passkeys, then the recovery flow (right
    answer, new passkey), which calls [_clear_lockout].  The shelf is reset,
    but the object still counts two failures, so the first wrong passkey
    after the recovery locks the vault (for the base window of 60 seconds),
    where a fresh cycle would take three. *)
Theorem C3_clear_keeps_the_failures_counted_in_memory :
  lockout_view (seconds 3)
    (run ascii_lower false (sample_vault ascii_lower, VaultPage)
       [Relaunch 0; wrong (seconds 1); wrong (seconds 2);
        Recover (seconds 3) (txt "paris") second_salt
          (txt "new passkey") (txt "new passkey")])
  = Some (false, 0, 2, VInt 0)
  /\ get "failed_attempts" VNone
       (auth (sample_after ascii_lower false
                [Relaunch 0; wrong (seconds 1); wrong (seconds 2);
                 Recover (seconds 3) (txt "paris") second_salt
                   (txt "new passkey") (txt "new passkey")]))
     = VInt 0
  /\ lockout_view (seconds 4)
       (run ascii_lower false (sample_vault ascii_lower, VaultPage)
          [Relaunch 0; wrong (seconds 1); wrong (seconds 2);
           Recover (seconds 3) (txt "paris") second_salt
             (txt "new passkey") (txt "new passkey");
           wrong (seconds 4)])
     = Some (true, 60, 0, VInt 1).
Proof.
  split; [|split].
  - vm_compute. reflexivity.
  - vm_compute. reflexivity.
  - vm_compute. reflexivity.
Qed.

(** *** The theorems at work on the sample installation *)

Lemma C2_first_lockout_on_sample :
  exists self1 s1 self2 s2 self3,
    login_verify_passkey false (seconds 1) (txt "guess")
      (sample_vault ascii_lower) fresh_session = Some (self1, VerificationPage s1)
    /\ _failed_attempts self1 = 1
    /\ login_verify_passkey false (seconds 2) (txt "correct horsf") self1 s1
       = Some (self2, VerificationPage s2)
    /\ _failed_attempts self2 = 2
    /\ login_verify_passkey false (seconds 3) (txt " Correct Horse ") self2 s2
       = Some (self3, LockoutPage)
    /\ _lockout_until self3 = Some (seconds 3 + timedelta_seconds 60)
    /\ (forall t, (_is_locked_out t self3).1 = (t <? seconds 3 + timedelta_seconds 60))
    /\ _get_lockout_remaining (seconds 3) self3 = 60
    /\ (forall t, seconds 3 <= t < seconds 3 + timedelta_seconds 1 ->
                  59 <= _get_lockout_remaining t self3 <= 60).
Proof.
  apply (C2_three_failures_lock_for_sixty_seconds false (seconds 1) (seconds 2) (seconds 3)
           (txt "guess") (txt "correct horsf") (txt " Correct Horse ")
           (sample_vault ascii_lower) fresh_session).
  - vm_compute. reflexivity.
  - vm_compute. reflexivity.
  - vm_compute. reflexivity.
  - vm_compute. reflexivity.
  - vm_compute. reflexivity.
Defined.

(** After a first lockout that ran out while the application was closed
    and two more wrong passkeys, the right passkey (typed with a space in
    front) resets the failure counter and keeps lockout count 1. *)
Lemma C4_success_after_two_failures_on_sample :
  exists self' page,
    login_verify_passkey false (seconds 75) (txt " correct horse")
      (sample_after ascii_lower false
         [Relaunch 0; wrong (seconds 1); wrong (seconds 2); wrong (seconds 3);
          Relaunch (seconds 70); wrong (seconds 71); wrong (seconds 72)])
      fresh_session
    = Some (self', page)
    /\ _failed_attempts self' = 0
    /\ get "failed_attempts" VNone (auth self') = VInt 0
    /\ get "lockout_count" VNone (auth self') = VInt 1.
Proof.
  destruct (C4_success_resets_only_failed_attempts false (seconds 75) (txt " correct horse")
              (sample_after ascii_lower false
                 [Relaunch 0; wrong (seconds 1); wrong (seconds 2); wrong (seconds 3);
                  Relaunch (seconds 70); wrong (seconds 71); wrong (seconds 72)])
              fresh_session)
    as (self' & page & Hrun & Hf & Hsf & _ & _ & Hc & _).
  - vm_compute. reflexivity.
  - vm_compute. reflexivity.
  - apply session_ok_fresh.
  - exists self', page. split; [exact Hrun|]. split; [exact Hf|]. split; [exact Hsf|].
    unfold get. rewrite Hc. vm_compute. reflexivity.
Defined.

Lemma C5_paris_on_sample :
  _verify_secret_answer ascii_lower (sample_vault ascii_lower) (txt "Paris") = Some true
  /\ _verify_secret_answer ascii_lower (sample_vault ascii_lower) (txt "paris") = Some true
  /\ _verify_secret_answer ascii_lower (sample_vault ascii_lower) (txt " paris ") = Some true
  /\ _verify_secret_answer ascii_lower (sample_vault ascii_lower) (txt "  PARIS") = Some true
  /\ _verify_secret_answer ascii_lower (sample_vault ascii_lower) (txt "Pariss") = Some false.
Proof.
  destruct (C5_recovery_answer_is_normalised ascii_lower (fun s _ => eq_refl))
    as (Hstored & _ & _ & Hparis).
  assert (Hsave : exists self,
            _save_secret_question ascii_lower sample_answer_salt (txt "q_birth_city")
              (txt "Paris") self = Some (sample_vault ascii_lower)).
  { eexists (set_setup_data ∅ (default (__init__ ∅)
              (_save_passkey sample_salt (txt "correct horse") (__init__ ∅)))).
    vm_compute. reflexivity. }
  destruct Hsave as [self Hsave].
  destruct (Hparis _ _ _ _ Hsave) as (H1 & H2 & H3).
  split; [exact H1|]. split; [exact H2|]. split; [exact H3|]. split.
  - apply (Hstored _ _ _ _ _ _ Hsave). vm_compute. reflexivity.
  - vm_compute. reflexivity.
Defined.

Lemma C6_passkeys_on_sample :
  _verify_passkey (sample_vault ascii_lower) (txt "correct horse") = Some true
  /\ _verify_passkey (sample_vault ascii_lower) (txt "correct horsf") = Some false.
Proof.
  assert (Hsave : exists self,
            _save_passkey sample_salt (txt "correct horse") self
            = Some (sample_vault ascii_lower)).
  { eexists (with_auth (put "secret_answer_salt" (VStr sample_answer_salt))
               (with_auth (put "secret_answer_hash"
                  (VStr (default [] (_hash_passkey (txt "paris") sample_answer_salt))))
                  (with_auth (put "secret_question" (VStr (txt "q_birth_city")))
                     (__init__ ∅)))).
    vm_compute. reflexivity. }
  destruct Hsave as [self Hsave].
  destruct (C6_verify_compares_keyed_hashes sample_salt (txt "correct horse") self
              (sample_vault ascii_lower) Hsave) as [Hsame Hother].
  split; [exact Hsame|].
  apply (Hother (txt "correct horsf")
           (default [] (_hash_passkey (txt "correct horse") sample_salt))
           (default [] (_hash_passkey (txt "correct horsf") sample_salt))).
  - vm_compute. reflexivity.
  - vm_compute. reflexivity.
  - vm_compute. discriminate.
Defined.

Lemma C7_change_passkey_on_sample :
  change_passkey_save second_salt (txt "correct horsf") (txt "new passkey")
    (txt "new passkey") (sample_vault ascii_lower)
  = Some (sample_vault ascii_lower, T "wrong_current")
  /\ exists self',
       change_passkey_save second_salt (txt "correct horse ") (txt " new passkey")
         (txt "new passkey ") (sample_vault ascii_lower)
       = Some (self', T "passkey_changed")
       /\ get "salt" VNone (auth self') = VStr second_salt
       /\ _verify_passkey self' (txt "new passkey") = Some true
       /\ _verify_passkey self' (txt "correct horse") = Some false.
Proof.
  split.
  - apply (C7_change_passkey_checks_current_first second_salt (txt "correct horsf")
             (txt "new passkey") (txt "new passkey") (sample_vault ascii_lower)).
    vm_compute. reflexivity.
  - destruct (C7_change_passkey_checks_current_first second_salt (txt "correct horse ")
                (txt " new passkey") (txt "new passkey ") (sample_vault ascii_lower))
      as [_ Hchange].
    destruct (Hchange (default [] (_hash_passkey (txt "new passkey") second_salt)))
      as (self' & Hrun & Hsave & Hsalt & _ & Hnew).
    + vm_compute. reflexivity.
    + vm_compute. lia.
    + vm_compute. reflexivity.
    + vm_compute. reflexivity.
    + exists self'. split; [exact Hrun|]. split; [exact Hsalt|]. split; [exact Hnew|].
      vm_compute in Hsave. injection Hsave as <-. vm_compute. reflexivity.
Defined.

Lemma C8_session_on_sample :
  (sequencer_step false (VerifyVoice (mkDevices true true LoginRaises))
     (sample_vault ascii_lower) (set_step 1 (set_verified "passkey" fresh_session))
   = Some (sample_vault ascii_lower,
           VerificationPage
             (set_step 2 (set_verified "voice"
                            (set_step 1 (set_verified "passkey" fresh_session)))))
   /\ verified (set_step 2 (set_verified "voice"
                              (set_step 1 (set_verified "passkey" fresh_session))))
      !! "passkey" = Some true)
  /\ restart (seconds 10)
       (sample_after ascii_lower false
          [Relaunch 0; wrong (seconds 1); wrong (seconds 2); wrong (seconds 3)])
     = Some (mkApp (auth (sample_after ascii_lower false
                            [Relaunch 0; wrong (seconds 1); wrong (seconds 2);
                             wrong (seconds 3)]))
               0 (Some (seconds 63)) 0 ∅, LockoutPage).
Proof.
  destruct (C8_verified_grows_and_is_not_persisted false)
    as (Hgrow & _ & _ & Hlocked).
  split.
  - assert (Hstep : sequencer_step false (VerifyVoice (mkDevices true true LoginRaises))
                      (sample_vault ascii_lower)
                      (set_step 1 (set_verified "passkey" fresh_session))
                    = Some (sample_vault ascii_lower,
                            VerificationPage
                              (set_step 2 (set_verified "voice"
                                 (set_step 1 (set_verified "passkey" fresh_session))))))
      by (vm_compute; reflexivity).
    split; [exact Hstep|].
    apply (Hgrow _ _ _ _ _ "passkey" Hstep). vm_compute. reflexivity.
  - apply (Hlocked (seconds 10) (seconds 63) 0).
    + vm_compute. reflexivity.
    + vm_compute. reflexivity.
    + vm_compute. reflexivity.
    + vm_compute. discriminate.
Defined.

Lemma C9_voice_and_face_on_sample :
  (exists page,
     login_verify_voice false (mkDevices false false (LoginEvent true))
       (set_step 1 (set_verified "passkey" fresh_session))
     = Some (voice_script, page)
     /\ outcome_of "voice" page = Success)
  /\ (exists page,
        login_verify_face false (mkDevices false false (LoginEvent true))
          (set_step 2 (set_verified "voice"
                         (set_step 1 (set_verified "passkey" fresh_session))))
        = Some (face_script, page)
        /\ page = VaultPage).
Proof.
  split.
  - destruct (C9_voice_and_face_always_succeed false
                (mkDevices false false (LoginEvent true))
                (set_step 1 (set_verified "passkey" fresh_session)))
      as [(page & Hrun & _ & Hout) _].
    + apply session_ok_set_verified, session_ok_fresh.
    + by exists page.
  - destruct (C9_voice_and_face_always_succeed false
                (mkDevices false false (LoginEvent true))
                (set_step 2 (set_verified "voice"
                               (set_step 1 (set_verified "passkey" fresh_session)))))
      as [_ (page & Hrun & _ & _)].
    + apply (session_ok_set_verified "voice"
               (set_step 1 (set_verified "passkey" fresh_session))).
      apply session_ok_set_verified, session_ok_fresh.
    + exists page. split; [exact Hrun|].
      vm_compute in Hrun. injection Hrun as <-. reflexivity.
Defined.

Lemma C10_padded_passkey_on_sample :
  (exists self'' page,
     login_verify_passkey false (seconds 5) ([0x09; 0x20] ++ txt "correct horse" ++ [0x0A])
       (sample_vault ascii_lower) fresh_session
     = Some (self'', page)
     /\ outcome_of "passkey" page = Success)
  /\ (exists self'' page,
        login_verify_passkey false (seconds 5) ([0x09; 0x20] ++ txt "correct horsf " ++ [0x0A])
          (sample_vault ascii_lower) fresh_session
        = Some (self'', page)
        /\ outcome_of "passkey" page = Failure)
  /\ (exists self'',
        change_passkey_save second_salt ([0x09; 0x20] ++ txt "correct horse" ++ [0x0A])
          ([] ++ txt "new passkey" ++ [0x20]) ([0x20; 0x20] ++ txt "new passkey" ++ [])
          (sample_vault ascii_lower)
        = Some (self'', T "passkey_changed")
        /\ _verify_passkey self'' (txt "new passkey") = Some true).
Proof.
  destruct (C10_passkey_entries_are_stripped false [0x09; 0x20] [0x0A] [] [0x20]
              [0x20; 0x20] [] (txt "correct horse"))
    as (_ & Hlogin & Hrefuse & Hchange & _).
  - repeat constructor.
  - repeat constructor.
  - constructor.
  - repeat constructor.
  - repeat constructor.
  - constructor.
  - vm_compute. reflexivity.
  - vm_compute. lia.
  - assert (Hsave : exists self,
              _save_passkey sample_salt (txt "correct horse") self
              = Some (sample_vault ascii_lower)).
    { eexists (with_auth (put "secret_answer_salt" (VStr sample_answer_salt))
                 (with_auth (put "secret_answer_hash"
                    (VStr (default [] (_hash_passkey (txt "paris") sample_answer_salt))))
                    (with_auth (put "secret_question" (VStr (txt "q_birth_city")))
                       (__init__ ∅)))).
      vm_compute. reflexivity. }
    destruct Hsave as [self Hsave].
    split; [|split].
    + eexists _, _. split.
      * apply (Hlogin (seconds 5) sample_salt self (sample_vault ascii_lower)
                 fresh_session Hsave).
        -- vm_compute. reflexivity.
        -- apply session_ok_fresh.
      * vm_compute. reflexivity.
    + eexists _, _. split.
      * apply (Hrefuse (seconds 5) sample_salt (txt "correct horsf ")
                 (default [] (_hash_passkey (txt "correct horse") sample_salt))
                 (default [] (_hash_passkey (txt "correct horsf") sample_salt))
                 self (sample_vault ascii_lower) fresh_session Hsave).
        -- vm_compute. reflexivity.
        -- vm_compute. reflexivity.
        -- vm_compute. discriminate.
        -- vm_compute. reflexivity.
      * vm_compute. reflexivity.
    + destruct (Hchange sample_salt second_salt (txt "new passkey")
                  (default [] (_hash_passkey (txt "new passkey") second_salt))
                  self (sample_vault ascii_lower) Hsave)
        as (self'' & Hrun & _ & _ & Hv).
      * vm_compute. reflexivity.
      * vm_compute. lia.
      * vm_compute. reflexivity.
      * exists self''. split; [exact Hrun | exact Hv].
Defined.

(** *** Further properties at work on the sample installation *)

(** With six lockouts on the shelf the seventh lasts an hour. *)
Lemma X1_seventh_lockout_on_sample :
  exists self',
    _apply_lockout (seconds 3)
      (with_auth (put "lockout_count" (VInt 6)) (sample_vault ascii_lower)) = Some self'
    /\ _lockout_until self' = Some (seconds 3 + timedelta_seconds 3600)
    /\ get "lockout_count" VNone (auth self') = VInt 7
    /\ _failed_attempts self' = 0.
Proof.
  destruct (X1_apply_lockout_doubles_then_caps (seconds 3) 6
              (with_auth (put "lockout_count" (VInt 6)) (sample_vault ascii_lower)))
    as (self' & Ha & Hu & _ & Hc & Hf & _).
  - vm_compute. reflexivity.
  - lia.
  - exists self'. split; [exact Ha|]. split; [exact Hu|]. split; [exact Hc|]. exact Hf.
Defined.

(** The third wrong passkey at second 3 locks the sample vault; opened again
    at second 10 it shows the lockout page, at second 63 the passkey form. *)
Lemma X2_restart_during_lockout_on_sample :
  exists self' u,
    login_verify_passkey false (seconds 3) (txt "guess")
      (sample_after ascii_lower false [Relaunch 0; wrong (seconds 1); wrong (seconds 2)])
      fresh_session
    = Some (self', LockoutPage)
    /\ _lockout_until self' = Some u
    /\ restart (seconds 10) self' = Some (mkApp (auth self') 0 (Some u) 0 ∅, LockoutPage)
    /\ restart (seconds 63) self'
       = Some (mkApp (auth self') 0 (Some u) 0 ∅, VerificationPage fresh_session)
    /\ get "lockout_count" VNone (auth self') = VInt 1.
Proof.
  destruct (X2_lockout_survives_restart false (seconds 3) (seconds 10) 0 (txt "guess")
              (sample_after ascii_lower false
                 [Relaunch 0; wrong (seconds 1); wrong (seconds 2)])
              fresh_session)
    as (self' & u & Hrun & Hu & _ & Hearly & _ & Hc).
  - vm_compute. reflexivity.
  - vm_compute. split; [reflexivity | discriminate].
  - vm_compute. reflexivity.
  - vm_compute. reflexivity.
  - lia.
  - destruct (X2_lockout_survives_restart false (seconds 3) (seconds 63) 0 (txt "guess")
                (sample_after ascii_lower false
                   [Relaunch 0; wrong (seconds 1); wrong (seconds 2)])
                fresh_session)
      as (self'' & u' & Hrun' & Hu' & _ & _ & Hlate & _).
    + vm_compute. reflexivity.
    + vm_compute. split; [reflexivity | discriminate].
    + vm_compute. reflexivity.
    + vm_compute. reflexivity.
    + lia.
    + rewrite Hrun in Hrun'. injection Hrun' as <-.
      rewrite Hu in Hu'. injection Hu' as <-.
      exists self', u. split; [exact Hrun|]. split; [exact Hu|].
      assert (Hval : u = seconds 63).
      { vm_compute in Hrun. injection Hrun as <-. vm_compute in Hu.
        injection Hu as <-. reflexivity. }
      split; [|split; [|exact Hc]].
      * apply Hearly. rewrite Hval. unfold seconds, timedelta_seconds. lia.
      * apply Hlate. rewrite Hval. lia.
Defined.

(** Half a second before the deadline of the sample lockout. *)
Lemma X3_last_second_on_sample :
  (_is_locked_out (seconds 63 - 500000)
     (sample_after ascii_lower false
        [Relaunch 0; wrong (seconds 1); wrong (seconds 2); wrong (seconds 3)])).1 = true
  /\ _get_lockout_remaining (seconds 63 - 500000)
       (sample_after ascii_lower false
          [Relaunch 0; wrong (seconds 1); wrong (seconds 2); wrong (seconds 3)]) = 0
  /\ update_countdown page_fuel (seconds 63 - 500000)
       (sample_after ascii_lower false
          [Relaunch 0; wrong (seconds 1); wrong (seconds 2); wrong (seconds 3)])
     = Some (_clear_lockout
               (sample_after ascii_lower false
                  [Relaunch 0; wrong (seconds 1); wrong (seconds 2); wrong (seconds 3)]),
             VerificationPage fresh_session).
Proof.
  destruct (X3_countdown_releases_within_the_last_second (seconds 63 - 500000) (seconds 63)
              (sample_after ascii_lower false
                 [Relaunch 0; wrong (seconds 1); wrong (seconds 2); wrong (seconds 3)]))
    as (_ & [_ Hlast] & Htick).
  - vm_compute. reflexivity.
  - assert (Hin : 0 < seconds 63 - (seconds 63 - 500000) < 1000000) by lia.
    destruct (Hlast Hin) as [Hl Hr].
    split; [exact Hl|]. split; [exact Hr|]. exact (Htick Hin).
Defined.

(** A failure counter of 3 found at launch: the right passkey is refused. *)
Lemma X4_right_passkey_refused_on_sample :
  exists self',
    login_verify_passkey false (seconds 5) (txt "correct horse")
      (set_failed_attempts 3 (sample_vault ascii_lower)) fresh_session
    = Some (self', LockoutPage)
    /\ _verify_passkey (sample_vault ascii_lower) (txt "correct horse") = Some true.
Proof.
  destruct (X4_exhausted_counter_locks_unseen false (seconds 5) 0 (txt "correct horse")
              (set_failed_attempts 3 (sample_vault ascii_lower)) fresh_session)
    as (self' & _ & Hrun & _).
  - vm_compute. discriminate.
  - vm_compute. reflexivity.
  - lia.
  - exists self'. split; [exact Hrun|]. vm_compute. reflexivity.
Defined.

(** Wrong passkeys, a wrong recovery answer, a restart and a countdown tick
    end on the lockout page. *)
Lemma X5_guessing_on_sample :
  exists self',
    run ascii_lower false (sample_vault ascii_lower, VerificationPage fresh_session)
      [wrong (seconds 1);
       Recover (seconds 2) (txt "london") second_salt (txt "new passkey") (txt "new passkey");
       wrong (seconds 3); Relaunch (seconds 4); wrong (seconds 5); TimerTick (seconds 6)]
    = Some (self', LockoutPage)
    /\ LockoutPage <> VaultPage.
Proof.
  destruct (run ascii_lower false (sample_vault ascii_lower, VerificationPage fresh_session)
              [wrong (seconds 1);
               Recover (seconds 2) (txt "london") second_salt (txt "new passkey")
                 (txt "new passkey");
               wrong (seconds 3); Relaunch (seconds 4); wrong (seconds 5);
               TimerTick (seconds 6)])
    as [[self' page']|] eqn:Hrun; [|vm_compute in Hrun; discriminate Hrun].
  assert (Hpage : page' = LockoutPage).
  { vm_compute in Hrun. injection Hrun as _ <-. reflexivity. }
  subst page'. exists self'. split; [reflexivity|].
  apply (X5_no_vault_without_the_passkey ascii_lower false (sample_vault ascii_lower) self'
           fresh_session LockoutPage
           [wrong (seconds 1);
            Recover (seconds 2) (txt "london") second_salt (txt "new passkey")
              (txt "new passkey");
            wrong (seconds 3); Relaunch (seconds 4); wrong (seconds 5);
            TimerTick (seconds 6)]).
  - vm_compute. discriminate.
  - repeat (constructor; [vm_compute; first [reflexivity | exact I]|]). constructor.
  - exact Hrun.
Defined.

(** The right passkey, the voice step and the face step open the sample
    vault on a desktop. *)
Lemma X6_three_factors_on_sample :
  run ascii_lower false (sample_vault ascii_lower, VerificationPage fresh_session)
    [Verify (EnterPasskey (seconds 1) (txt " correct horse"));
     Verify (VerifyVoice (mkDevices false false LoginRaises));
     Verify (VerifyFace (mkDevices false false LoginRaises))]
  = Some (with_auth (put "failed_attempts" (VInt 0))
            (set_failed_attempts 0 (sample_vault ascii_lower)),
          VaultPage).
Proof.
  pose proof (X6_factors_in_order_open_the_vault ascii_lower false (seconds 1)
                (txt " correct horse") (mkDevices false false LoginRaises)
                (mkDevices false false LoginRaises) (mkDevices false false LoginRaises)
                (sample_vault ascii_lower)) as Hopen.
  cbv zeta in Hopen.
  destruct Hopen as (_ & _ & Hdesktop & _).
  - vm_compute. reflexivity.
  - vm_compute. reflexivity.
  - exact (Hdesktop eq_refl).
Defined.

(** A new passkey of three characters is refused although the current one
    is right. *)
Lemma X7_short_passkey_on_sample :
  _verify_passkey (sample_vault ascii_lower) (strip (txt "correct horse")) = Some true
  /\ (length (strip (txt "abc ")) < 4)%nat.
Proof.
  destruct (X7_rejected_change_leaves_everything second_salt (txt "correct horse")
              (txt "abc ") (txt "abc") (sample_vault ascii_lower)
              (sample_vault ascii_lower) (T "pass_too_short"))
    as (_ & [[Hmsg _] | [(_ & Hv & Hlen) | [Hmsg _]]]).
  - vm_compute. reflexivity.
  - discriminate.
  - discriminate Hmsg.
  - split; [exact Hv | exact Hlen].
  - discriminate Hmsg.
Defined.

(** The recovery reset during the sample lockout. *)
Lemma X8_reset_during_lockout_on_sample :
  exists self',
    reset_passkey_save (seconds 30) second_salt (txt " new passkey") (txt "new passkey ")
      (sample_after ascii_lower false
         [Relaunch 0; wrong (seconds 1); wrong (seconds 2); wrong (seconds 3)])
    = Some (self', T "passkey_changed", Some (VerificationPage fresh_session))
    /\ _verify_passkey self' (strip (txt " new passkey")) = Some true
    /\ _lockout_until self' = None
    /\ (forall t, _is_locked_out t self' = (false, self')).
Proof.
  destruct (X8_reset_installs_passkey_and_lifts_lockout ascii_lower (seconds 30) second_salt
              (txt " new passkey") (txt "new passkey ")
              (default [] (_hash_passkey (txt "new passkey") second_salt))
              (sample_after ascii_lower false
                 [Relaunch 0; wrong (seconds 1); wrong (seconds 2); wrong (seconds 3)]))
    as (self' & Hrun & Hv & Hu & _ & _ & _ & _ & Hfree & _).
  - vm_compute. lia.
  - vm_compute. reflexivity.
  - vm_compute. reflexivity.
  - exists self'. split; [exact Hrun|]. split; [exact Hv|]. split; [exact Hu | exact Hfree].
Defined.

(** Two wrong recovery answers on the lockout page of the sample vault. *)
Lemma X9_wrong_answers_on_sample :
  run ascii_lower false
    (sample_after ascii_lower false
       [Relaunch 0; wrong (seconds 1); wrong (seconds 2); wrong (seconds 3)],
     LockoutPage)
    ((fun a => Recover a.1.1.1.1 a.1.1.1.2 a.1.1.2 a.1.2 a.2)
       <$> [(seconds 4, txt "london", second_salt, txt "new passkey", txt "new passkey");
            (seconds 5, txt "rome", second_salt, txt "new passkey", txt "new passkey")])
  = Some (sample_after ascii_lower false
            [Relaunch 0; wrong (seconds 1); wrong (seconds 2); wrong (seconds 3)],
          LockoutPage).
Proof.
  apply (X9_wrong_recovery_answers_are_not_counted ascii_lower false).
  - left. reflexivity.
  - repeat (constructor; [vm_compute; reflexivity|]). constructor.
Defined.


(** Before setup no passkey verifies. *)
Lemma X11_before_setup_on_sample :
  _has_passkey (__init__ ∅) = false
  /\ _verify_passkey (__init__ ∅) (txt "correct horse") = Some false.
Proof.
  apply (X11_nothing_verifies_without_a_stored_passkey (__init__ ∅) (txt "correct horse")).
  - vm_compute. reflexivity.
  - vm_compute. reflexivity.
  - vm_compute. eexists. reflexivity.
Defined.

(** A vault reset during the sample lockout. *)
Lemma X12_reset_during_lockout_on_sample :
  exists self',
    confirm_reset_yes
      (sample_after ascii_lower false
         [Relaunch 0; wrong (seconds 1); wrong (seconds 2); wrong (seconds 3)])
      sample_credentials ∅
    = ((self', SetupStep 1), ∅, ∅)
    /\ _verify_passkey self' (txt "correct horse") = Some false
    /\ restart (seconds 10) self' = Some (__init__ ∅, SetupStep 1).
Proof.
  destruct (X12_reset_wipes_the_vault_and_any_lockout (seconds 10) (txt "correct horse")
              (sample_after ascii_lower false
                 [Relaunch 0; wrong (seconds 1); wrong (seconds 2); wrong (seconds 3)])
              sample_credentials ∅)
    as (self' & Hreset & _ & _ & _ & Hv & Hrestart & _).
  - vm_compute. eexists. reflexivity.
  - exists self'. split; [exact Hreset|]. split; [exact Hv | exact Hrestart].
Defined.

(** Searching the sample credentials for "mail" lists the second record,
    with index 1. *)
Lemma X16_search_on_sample :
  get_all sample_credentials !! 1%nat
  = Some (credential (txt "Mail") (txt "ann@example.org") (txt "pw2"))
  /\ _copy_pass 1 sample_credentials = Some (txt "pw2")
  /\ get_all (confirm_delete_yes 1 sample_credentials)
     = [credential (txt "Bank") (txt "ann") (txt "pw1")].
Proof.
  destruct (X16_cards_address_the_record_shown ascii_lower
              (_on_search ascii_lower (txt " Mail")) sample_credentials 1
              (credential (txt "Mail") (txt "ann@example.org") (txt "pw2")))
    as (Hl & Hd & _ & Hp & _).
  - vm_compute. apply list_elem_of_here.
  - split; [exact Hl|]. split.
    + etransitivity; [exact Hp|]. vm_compute. reflexivity.
    + etransitivity; [exact Hd|]. vm_compute. reflexivity.
Defined.

(** Saves (one of them incomplete), an edit and deletions from the empty
    vault. *)
Lemma X17_vault_run_on_sample :
  Forall well_formed_credential
    (get_all (foldl vault_step ∅
                [SaveNew (txt "Bank") (txt " ann ") (txt "pw1");
                 SaveNew (txt "Mail") (txt "  ") (txt "pw2");
                 SaveNew (txt "Mail") (txt "ann@example.org") (txt "pw2");
                 SaveEdit 0 (txt "Bank ") (txt "ann") (txt "pw3");
                 Delete 5; Delete 1])).
Proof.
  apply (X17_stored_credentials_are_complete_and_trimmed
           [SaveNew (txt "Bank") (txt " ann ") (txt "pw1");
            SaveNew (txt "Mail") (txt "  ") (txt "pw2");
            SaveNew (txt "Mail") (txt "ann@example.org") (txt "pw2");
            SaveEdit 0 (txt "Bank ") (txt "ann") (txt "pw3");
            Delete 5; Delete 1] ∅).
  vm_compute. apply Forall_nil. exact I.
Defined.

(** The countdown of the seventh lockout, seven seconds in. *)
Lemma X18_countdown_on_sample :
  exists self',
    _apply_lockout (seconds 3)
      (with_auth (put "lockout_count" (VInt 6)) (sample_vault ascii_lower)) = Some self'
    /\ match countdown_text (_get_lockout_remaining (seconds 10) self') with
       | Sec secs => secs = _get_lockout_remaining (seconds 10) self' /\ 0 <= secs < 60
       | MinSec mins secs =>
           mins * 60 + secs = _get_lockout_remaining (seconds 10) self'
           /\ 1 <= mins <= 60 /\ 0 <= secs < 60 /\ (mins = 60 -> secs = 0)
       end.
Proof.
  apply (X18_countdown_shows_at_most_an_hour (seconds 3) (seconds 10) 6
           (with_auth (put "lockout_count" (VInt 6)) (sample_vault ascii_lower))).
  - vm_compute. reflexivity.
  - lia.
  - unfold seconds, timedelta_seconds. lia.
Defined.

(** Editing the second sample credential without a change. *)
Lemma X19_untouched_edit_on_sample :
  _open_dialog (Some 1) sample_credentials
  = Some (txt "Mail", txt "ann@example.org", txt "pw2")
  /\ get_all (credential_save (Some 1) (txt "Mail") (txt "ann@example.org") (txt "pw2")
                sample_credentials).1
     = get_all sample_credentials.
Proof.
  destruct (X19_edit_without_change_keeps_the_list 1 (txt "Mail") (txt "ann@example.org")
              (txt "pw2") sample_credentials)
    as (Hopen & _ & Hsame).
  - vm_compute. reflexivity.
  - vm_compute. repeat split; first [discriminate | reflexivity].
  - split; [exact Hopen | exact Hsame].
Defined.
